(** * Carousel controller — a shallow embedding of
      [src/app/components/carousel/carousel.component.ts]

    The component is glue between four collaborators: the Angular view
    container that instantiates item views, the slider engine (Swiper),
    the RxJS subject behind [indexChange] and lodash's [debounce].  The
    controller's own state and the part of each collaborator's state that
    the controller's control flow depends on are kept in one record; every
    call that leaves the controller is appended to a call log, so that
    ordering properties can be read off the log. *)

(** * Part I — the embedding and the vocabulary of the statements *)

From stdpp Require Import base numbers option list.
From Stdlib Require String.
Import (notations) String.

Local Open Scope Z_scope.

(** ** Values *)

(** The result of [+element.dataset.index]: an integer when the attribute
    holds an integer literal, [NaN] when it is absent or not numeric.
    Fractional values are outside the model. *)
Inductive jsnumber : Type :=
| Num (z : Z)
| NaN.

(** JavaScript [===] on numbers: [NaN] is not equal to itself. *)
Definition strict_eq (x y : jsnumber) : bool :=
  match x, y with
  | Num a, Num b => a =? b
  | _, _ => false
  end.

(** [a[i]] on an array: [None] is [undefined]. *)
Definition js_get {A : Type} (a : list A) (i : jsnumber) : option A :=
  match i with
  | Num z => if 0 <=? z then a !! Z.to_nat z else None
  | NaN => None
  end.

(** A [.swiper-slide] element: its node identity and the numeric value of
    its [data-index] attribute. *)
Record HTMLElement : Type := mkElement {
  node : nat;
  dataset_index : jsnumber
}.

(** The instance behind a [ComponentRef<CarouselItemComponent>]; a
    reference is the position of the instance in the heap. *)
Record ItemInstance : Type := mkItem {
  iterationId : option Z;
  destroyed : bool
}.

Abbreviation ComponentRef := nat.

(** State of the function returned by lodash's [debounce(func, wait)]
    (no options: trailing edge only, no [maxWait]).  [timerId] holds the
    deadline of the pending [setTimeout]. *)
Record Debounced : Type := mkDebounced {
  wait : Z;
  lastArgs : bool;
  lastCallTime : option Z;
  lastInvokeTime : Z;
  timerId : option Z
}.

(** The part of the Swiper instance the controller reads and writes. *)
Record Swiper : Type := mkSwiper {
  activeIndex : Z;
  slides : list HTMLElement;
  autoplay_running : bool
}.

(** Calls that leave the controller, in the order they are made. *)
Inductive Call : Type :=
| CRemove (i : Z)                              (* viewContainer.remove(i) *)
| CDestroy (c : ComponentRef)                  (* component.destroy() *)
| CQuerySelectorAll                            (* querySelectorAll('.swiper-slide') *)
| CCreateComponent (c : ComponentRef)          (* viewContainer.createComponent(itemFactory) *)
| CItemDetectChanges (c : ComponentRef) (data : option Z)
                                               (* component.changeDetectorRef.detectChanges() *)
| CAppendChild (root : nat) (c : ComponentRef) (* root.appendChild(n) *)
| CDetectChanges                               (* this.changeDetector.detectChanges() *)
| CAutoplayStart                               (* swiper.autoplay.start() *)
| CAutoplayStop                                (* swiper.autoplay.stop() *)
| CSlideToLoop (index : jsnumber) (speed : option Z)
                                               (* swiper.slideToLoop(index, speed) *)
| CEmit (v : jsnumber)                         (* indexChange delivers v *)
| CComplete.                                   (* indexChange completes *)

(** ** The state *)

Record State : Type := mkState {
  (* fields of CarouselComponent *)
  ids : option (list Z);
  components : option (list ComponentRef);
  swiper : bool;                    (* [this.swiper] is assigned *)
  isStopped : bool;                 (* indexChangeSubject *)
  key : option jsnumber;            (* distinctUntilChanged: hasKey / key of the
                                       subscriber bound to the output *)
  reinitialize : Debounced;
  (* collaborators *)
  engine : Swiper;
  dom : list HTMLElement;           (* the host's slide elements, document order *)
  views : list ComponentRef;        (* host views attached to viewContainer *)
  heap : list ItemInstance;
  now : Z;                          (* Date.now() *)
  log : list Call
}.

Definition set_ids v s :=
  mkState v (components s) (swiper s) (isStopped s) (key s) (reinitialize s)
          (engine s) (dom s) (views s) (heap s) (now s) (log s).
Definition set_components v s :=
  mkState (ids s) v (swiper s) (isStopped s) (key s) (reinitialize s)
          (engine s) (dom s) (views s) (heap s) (now s) (log s).
Definition set_swiper v s :=
  mkState (ids s) (components s) v (isStopped s) (key s) (reinitialize s)
          (engine s) (dom s) (views s) (heap s) (now s) (log s).
Definition set_isStopped v s :=
  mkState (ids s) (components s) (swiper s) v (key s) (reinitialize s)
          (engine s) (dom s) (views s) (heap s) (now s) (log s).
Definition set_key v s :=
  mkState (ids s) (components s) (swiper s) (isStopped s) v (reinitialize s)
          (engine s) (dom s) (views s) (heap s) (now s) (log s).
Definition set_reinitialize v s :=
  mkState (ids s) (components s) (swiper s) (isStopped s) (key s) v
          (engine s) (dom s) (views s) (heap s) (now s) (log s).
Definition set_engine v s :=
  mkState (ids s) (components s) (swiper s) (isStopped s) (key s) (reinitialize s)
          v (dom s) (views s) (heap s) (now s) (log s).
Definition set_dom v s :=
  mkState (ids s) (components s) (swiper s) (isStopped s) (key s) (reinitialize s)
          (engine s) v (views s) (heap s) (now s) (log s).
Definition set_views v s :=
  mkState (ids s) (components s) (swiper s) (isStopped s) (key s) (reinitialize s)
          (engine s) (dom s) v (heap s) (now s) (log s).
Definition set_heap v s :=
  mkState (ids s) (components s) (swiper s) (isStopped s) (key s) (reinitialize s)
          (engine s) (dom s) (views s) v (now s) (log s).
Definition set_now v s :=
  mkState (ids s) (components s) (swiper s) (isStopped s) (key s) (reinitialize s)
          (engine s) (dom s) (views s) (heap s) v (log s).
Definition set_log v s :=
  mkState (ids s) (components s) (swiper s) (isStopped s) (key s) (reinitialize s)
          (engine s) (dom s) (views s) (heap s) (now s) v.

(** ** Computations: state plus JavaScript exceptions *)

Inductive Completion (A : Type) : Type :=
| Normal (a : A)
| Throw.                            (* an uncaught TypeError *)
Arguments Normal {A} a.
Arguments Throw {A}.

Definition M (A : Type) : Type := State → Completion A * State.

Definition ret {A} (a : A) : M A := λ s, (Normal a, s).
Definition throw {A} : M A := λ s, (Throw, s).
Definition bind {A B} (m : M A) (k : A → M B) : M B :=
  λ s, match m s with
       | (Normal a, s') => k a s'
       | (Throw, s') => (Throw, s')
       end.
Definition gets {A} (f : State → A) : M A := λ s, (Normal (f s), s).
Definition modify (f : State → State) : M unit := λ s, (Normal tt, f s).
Definition call (c : Call) : M unit := modify (λ s, set_log (log s ++ [c]) s).

Notation "x <~ m ;; k" := (bind m (λ x, k))
  (at level 100, m at next level, right associativity).
Notation "m ;;; k" := (bind m (λ _, k))
  (at level 100, right associativity).

(** lodash [forEach] and [map] with an effectful callback. *)
Fixpoint forEach {A} (l : list A) (f : A → M unit) : M unit :=
  match l with
  | [] => ret tt
  | x :: l' => f x ;;; forEach l' f
  end.

Fixpoint mapM {A B} (l : list A) (f : A → M B) : M (list B) :=
  match l with
  | [] => ret []
  | x :: l' => y <~ f x ;; ys <~ mapM l' f ;; ret (y :: ys)
  end.

(** *** Angular's view container (ViewEngine) *)

(** [Array.prototype.indexOf]: the first position, or [-1]. *)
Fixpoint indexOf (c : ComponentRef) (l : list ComponentRef) : Z :=
  match l with
  | [] => -1
  | x :: l' =>
      if decide (x = c) then 0
      else let i := indexOf c l' in if i <? 0 then -1 else i + 1
  end.

(** [Services.destroyView]: a view already destroyed is left alone. *)
Definition destroyView (c : ComponentRef) (s : State) : State :=
  match heap s !! c with
  | Some inst =>
      if destroyed inst then s
      else set_heap (<[c := mkItem (iterationId inst) true]> (heap s)) s
  | None => s
  end.

(** [detachEmbeddedView]: an index past the end means the last view, a
    negative index detaches nothing. *)
Definition detachEmbeddedView (i : Z) (s : State) : option ComponentRef * State :=
  let n := Z.of_nat (length (views s)) in
  let i := if n <=? i then n - 1 else i in
  if i <? 0 then (None, s)
  else match views s !! Z.to_nat i with
       | Some v => (Some v, set_views (delete (Z.to_nat i) (views s)) s)
       | None => (None, s)
       end.

(** [viewContainer.remove(index)]. *)
Definition viewContainer_remove (i : Z) : M unit :=
  call (CRemove i) ;;;
  modify (λ s, match detachEmbeddedView i s with
               | (Some v, s') => destroyView v s'
               | (None, s') => s'
               end).

(** [viewContainer.indexOf(component.hostView)]. *)
Definition viewContainer_indexOf (c : ComponentRef) : M Z :=
  gets (λ s, indexOf c (views s)).

(** [component.destroy()]: detach the host view from its container, then
    destroy it. *)
Definition component_destroy (c : ComponentRef) : M unit :=
  call (CDestroy c) ;;;
  modify (λ s, destroyView c (snd (detachEmbeddedView (indexOf c (views s)) s))).

(** [viewContainer.createComponent(factory)]: a fresh instance whose host
    view is appended to the container. *)
Definition viewContainer_createComponent : M ComponentRef :=
  c <~ gets (λ s, length (heap s)) ;;
  modify (λ s, set_views (views s ++ [c]) (set_heap (heap s ++ [mkItem None false]) s)) ;;;
  call (CCreateComponent c) ;;;
  ret c.

(** [instance.iterationId = data]. *)
Definition set_iterationId (c : ComponentRef) (data : option Z) : M unit :=
  modify (λ s, match heap s !! c with
               | Some inst => set_heap (<[c := mkItem data (destroyed inst)]> (heap s)) s
               | None => s
               end).

(** [changeDetectorRef.detectChanges()] of an item: the render pass sees
    the instance's current [iterationId]. *)
Definition item_detectChanges (c : ComponentRef) : M unit :=
  d <~ gets (λ s, inst ← heap s !! c; iterationId inst) ;;
  call (CItemDetectChanges c d).

(** *** The RxJS subject and its [distinctUntilChanged] subscriber *)

(** [DistinctUntilChangedSubscriber._next] with the default comparison. *)
Definition distinct_next (v : jsnumber) : M unit :=
  k <~ gets key ;;
  if match k with Some k0 => strict_eq k0 v | None => false end
  then ret tt
  else modify (set_key (Some v)) ;;; call (CEmit v).

(** [Subject.next]. *)
Definition subject_next (v : jsnumber) : M unit :=
  stopped <~ gets isStopped ;;
  if stopped then ret tt else distinct_next v.

(** [Subject.complete]: observers are notified once and dropped. *)
Definition subject_complete : M unit :=
  stopped <~ gets isStopped ;;
  if stopped then ret tt
  else modify (set_isStopped true) ;;; call CComplete.

(** *** lodash [debounce] *)

Definition shouldInvoke (d : Debounced) (time : Z) : bool :=
  match lastCallTime d with
  | None => true
  | Some t => (wait d <=? time - t) || (time - t <? 0)
  end.

Definition remainingWait (d : Debounced) (time : Z) : Z :=
  wait d - (time - default 0 (lastCallTime d)).

Definition leadingEdge (time : Z) (d : Debounced) : Debounced :=
  mkDebounced (wait d) (lastArgs d) (lastCallTime d) time (Some (time + wait d)).

(** The debounced function itself. *)
Definition debounced (time : Z) (d : Debounced) : Debounced :=
  let isInvoking := shouldInvoke d time in
  let d1 := mkDebounced (wait d) true (Some time) (lastInvokeTime d) (timerId d) in
  match timerId d1 with
  | None =>
      if isInvoking then leadingEdge time d1
      else mkDebounced (wait d1) (lastArgs d1) (lastCallTime d1) (lastInvokeTime d1)
                       (Some (time + wait d1))
  | Some _ => d1
  end.

(** [timerExpired]: the new state, and whether [func] is invoked. *)
Definition timerExpired (time : Z) (d : Debounced) : Debounced * bool :=
  if shouldInvoke d time then
    (* trailingEdge, then invokeFunc when there are pending arguments *)
    if lastArgs d
    then (mkDebounced (wait d) false (lastCallTime d) time None, true)
    else (mkDebounced (wait d) false (lastCallTime d) (lastInvokeTime d) None, false)
  else
    (mkDebounced (wait d) (lastArgs d) (lastCallTime d) (lastInvokeTime d)
                 (Some (time + remainingWait d time)), false).

Definition cancel (d : Debounced) : Debounced :=
  mkDebounced (wait d) false None 0 None.

(** [debounce(func)]: [wait] is [toNumber(undefined) || 0]. *)
Definition debounce (wait_arg : option Z) : Debounced :=
  mkDebounced (default 0 wait_arg) false None 0 None.

(** ** The controller *)

(** [selectItemComponentRoots]. *)
Definition selectItemComponentRoots : M (list HTMLElement) :=
  call CQuerySelectorAll ;;; gets dom.

(** [updateItemComponent]. *)
Definition updateItemComponent (c : ComponentRef) (data : option Z) : M unit :=
  set_iterationId c data ;;; item_detectChanges c.

(** [createItemComponent]. *)
Definition createItemComponent (data : option Z) : M ComponentRef :=
  c <~ viewContainer_createComponent ;;
  updateItemComponent c data ;;;
  ret c.

(** [createItemComponentForRoot]: [this.ids[index]] throws when [ids] is
    still undefined and yields [undefined] when the index is not a
    position of the array. *)
Definition createItemComponentForRoot (root : HTMLElement) : M ComponentRef :=
  let index := dataset_index root in
  a <~ gets ids ;;
  match a with
  | None => throw
  | Some l =>
      c <~ createItemComponent (js_get l index) ;;
      call (CAppendChild (node root) c) ;;;
      ret c
  end.

(** [destroyItemComponent]. *)
Definition destroyItemComponent (c : ComponentRef) : M unit :=
  i <~ viewContainer_indexOf c ;;
  viewContainer_remove i ;;;
  component_destroy c.

(** [initialize]. *)
Definition initialize : M unit :=
  roots <~ selectItemComponentRoots ;;
  cs <~ mapM roots createItemComponentForRoot ;;
  modify (set_components (Some cs)).

(** [destroy]: [forEach] over [undefined] visits nothing. *)
Definition destroy : M unit :=
  cs <~ gets components ;;
  forEach (default [] cs) destroyItemComponent ;;;
  modify (set_components None).

(** [reinitializeImpl], the function wrapped by [debounce]. *)
Definition reinitializeImpl : M unit :=
  destroy ;;;
  initialize ;;;
  call CDetectChanges.

(** A call of the debounced [this.reinitialize()]. *)
Definition reinitialize_call : M unit :=
  modify (λ s, set_reinitialize (debounced (now s) (reinitialize s)) s).

(** [this.reinitialize.cancel()]. *)
Definition reinitialize_cancel : M unit :=
  modify (λ s, set_reinitialize (cancel (reinitialize s)) s).

(** The state the constructor and the field initialisers leave. *)
Definition constructor (e : Swiper) (d : list HTMLElement) (t : Z) : State :=
  mkState None None false false None (debounce None) e d [] [] t [].

(** [ngAfterViewInit]; the directive hands over its Swiper instance. *)
Definition ngAfterViewInit : M unit :=
  modify (set_swiper true) ;;;
  reinitialize_call.

(** [ngOnChanges(changes)]; [has_ids] is ['ids' in changes]. *)
Definition ngOnChanges (has_ids : bool) : M unit :=
  sw <~ gets swiper ;;
  if has_ids && sw then reinitialize_call else ret tt.

(** [ngOnDestroy]. *)
Definition ngOnDestroy : M unit :=
  subject_complete ;;;
  reinitialize_cancel ;;;
  destroy.

(** [indexChanged]: destructuring an unassigned [this.swiper] and reading
    [dataset] of a missing slide both throw. *)
Definition indexChanged : M unit :=
  sw <~ gets swiper ;;
  if sw then
    e <~ gets engine ;;
    match js_get (slides e) (Num (activeIndex e)) with
    | None => throw
    | Some element => subject_next (dataset_index element)
    end
  else throw.

(** [this.swiper.autoplay.stop()] / [start()]. *)
Definition autoplay_stop : M unit :=
  sw <~ gets swiper ;;
  if sw then
    call CAutoplayStop ;;;
    modify (λ s, set_engine (mkSwiper (activeIndex (engine s)) (slides (engine s)) false) s)
  else throw.

Definition autoplay_start : M unit :=
  sw <~ gets swiper ;;
  if sw then
    call CAutoplayStart ;;;
    modify (λ s, set_engine (mkSwiper (activeIndex (engine s)) (slides (engine s)) true) s)
  else throw.

(** [this.swiper.slideToLoop(index, speed)]. *)
Definition swiper_slideToLoop (index : jsnumber) (speed : option Z) : M unit :=
  sw <~ gets swiper ;;
  if sw then call (CSlideToLoop index speed) else throw.

(** [slideTo], whose [stopAutoplay()] call takes the default [reset = false]. *)
Definition slideTo (index : jsnumber) (speed : option Z) : M unit :=
  autoplay_stop ;;;
  swiper_slideToLoop index speed.

(** [startAutoplay] and [stopAutoplay]. *)
Definition startAutoplay (reset : bool) : M unit :=
  (if reset then slideTo (Num 0) (Some 0) else ret tt) ;;;
  autoplay_start.

Definition stopAutoplay (reset : bool) : M unit :=
  (if reset then slideTo (Num 0) (Some 0) else ret tt) ;;;
  autoplay_stop.

(** ** Turns of the event loop *)

Inductive Event : Type :=
| EvIds (l : option (list Z))       (* the framework writes the [ids] input *)
| EvNgOnChanges (has_ids : bool)
| EvNgAfterViewInit
| EvNgOnDestroy
| EvIndexChanged                    (* the engine's index-change notification *)
| EvSlideTo (index : jsnumber) (speed : option Z)
| EvStartAutoplay (reset : bool)
| EvStopAutoplay (reset : bool)
| EvActive (i : Z)                  (* the engine moves to another slide *)
| EvSlides (l : list HTMLElement)   (* the engine rebuilds its slide list *)
| EvDom (l : list HTMLElement)      (* the rendered slide elements change *)
| EvElapse (dt : nat)               (* the clock advances *)
| EvTimers.                         (* the loop runs the timeout if it is due *)

(** The timeout callback installed by [debounce]. *)
Definition run_timers : M unit :=
  d <~ gets reinitialize ;;
  t <~ gets now ;;
  match timerId d with
  | Some deadline =>
      if deadline <=? t then
        let '(d', invoke) := timerExpired t d in
        modify (set_reinitialize d') ;;;
        if invoke then reinitializeImpl else ret tt
      else ret tt
  | None => ret tt
  end.

Definition handle (e : Event) : M unit :=
  match e with
  | EvIds l => modify (set_ids l)
  | EvNgOnChanges h => ngOnChanges h
  | EvNgAfterViewInit => ngAfterViewInit
  | EvNgOnDestroy => ngOnDestroy
  | EvIndexChanged => indexChanged
  | EvSlideTo i sp => slideTo i sp
  | EvStartAutoplay r => startAutoplay r
  | EvStopAutoplay r => stopAutoplay r
  | EvActive i =>
      modify (λ s, set_engine (mkSwiper i (slides (engine s)) (autoplay_running (engine s))) s)
  | EvSlides l =>
      modify (λ s, set_engine (mkSwiper (activeIndex (engine s)) l (autoplay_running (engine s))) s)
  | EvDom l => modify (set_dom l)
  | EvElapse dt => modify (λ s, set_now (now s + Z.of_nat dt) s)
  | EvTimers => run_timers
  end.

(** An uncaught exception ends the turn; the state it leaves stays. *)
Definition step (e : Event) (s : State) : State := snd (handle e s).

Definition run (es : list Event) (s : State) : State := foldl (λ s e, step e s) s es.

(** ** Observations on the call log *)

Definition emitted (l : list Call) : list jsnumber :=
  omap (λ c, match c with CEmit v => Some v | _ => None end) l.

Definition is_query (c : Call) : bool :=
  match c with CQuerySelectorAll => true | _ => false end.

Definition is_create (c : Call) : bool :=
  match c with CCreateComponent _ => true | _ => false end.

(** Every rebuild queries the slides exactly once, and nothing else does. *)
Definition rebuilds (l : list Call) : nat := length (filter (λ c, is_query c = true) l).

Definition creations (l : list Call) : nat := length (filter (λ c, is_create c = true) l).

(** ** Vocabulary of the closed forms *)

Local Open Scope nat_scope.

Definition dead (i : ItemInstance) : ItemInstance := mkItem (iterationId i) true.

Definition kill (c : ComponentRef) (h : list ItemInstance) : list ItemInstance :=
  alter dead c h.

Definition kill_all (cs : list ComponentRef) (h : list ItemInstance) : list ItemInstance :=
  foldl (λ h c, kill c h) h cs.

(** The calls [destroy] makes for the tracked components [cs]. *)
Fixpoint unbind_calls (cs : list ComponentRef) : list Call :=
  match cs with
  | [] => []
  | c :: cs' => CRemove 0%Z :: CDestroy c :: unbind_calls cs'
  end.

(** The calls [initialize] makes per root once the slides are known; [n]
    is the reference the first new component receives. *)
Fixpoint bind_calls (l : list Z) (n : nat) (roots : list HTMLElement) : list Call :=
  match roots with
  | [] => []
  | r :: rs =>
      CCreateComponent n
        :: CItemDetectChanges n (js_get l (dataset_index r))
        :: CAppendChild (node r) n
        :: bind_calls l (S n) rs
  end.

Definition bound_items (l : list Z) (roots : list HTMLElement) : list ItemInstance :=
  (λ r, mkItem (js_get l (dataset_index r)) false) <$> roots.

(** ** Invariants *)

(** The container holds exactly the tracked components, each once, each a
    live instance of the heap; every other instance has been destroyed. *)
Record InvViews (s : State) : Prop := mkInvViews {
  inv_views : views s = default [] (components s);
  inv_nodup : NoDup (views s);
  inv_bound : ∀ c, c ∈ views s → c < length (heap s);
  inv_alive : ∀ c inst, heap s !! c = Some inst → destroyed inst = false → c ∈ views s
}.

(** The debounce delay is zero, and a pending timeout is due and has
    arguments to invoke with. *)
Record InvDebounce (s : State) : Prop := mkInvDebounce {
  inv_wait : wait (reinitialize s) = 0%Z;
  inv_timer : ∀ deadline, timerId (reinitialize s) = Some deadline →
              (deadline ≤ now s)%Z ∧ lastArgs (reinitialize s) = true
}.

(** The two events that touch the bindings: teardown and the timers turn.
    Every other event leaves the container, the heap and the tracked
    components alone. *)
Definition structural (e : Event) : bool :=
  match e with EvNgOnDestroy | EvTimers => true | _ => false end.

(** ** What the rebuild and the teardown leave *)

Definition rebuild_completion (s : State) : Completion unit :=
  match ids s, dom s with
  | None, _ :: _ => Throw
  | _, _ => Normal tt
  end.

Definition rebuild_components (s : State) : option (list ComponentRef) :=
  match ids s, dom s with
  | Some _, _ => Some (seq (length (heap s)) (length (dom s)))
  | None, [] => Some []
  | None, _ :: _ => None
  end.

Definition rebuild_items (s : State) : list ItemInstance :=
  match ids s with
  | Some l => bound_items l (dom s)
  | None => []
  end.

Definition rebuild_tail (s : State) : list Call :=
  match ids s, dom s with
  | Some l, _ => bind_calls l (length (heap s)) (dom s) ++ [CDetectChanges]
  | None, [] => [CDetectChanges]
  | None, _ :: _ => []
  end.

Definition rebuild_state (s : State) : State :=
  mkState (ids s) (rebuild_components s) (swiper s) (isStopped s) (key s)
          (reinitialize s) (engine s) (dom s)
          (default [] (rebuild_components s))
          (kill_all (views s) (heap s) ++ rebuild_items s) (now s)
          (log s ++ unbind_calls (views s) ++ [CQuerySelectorAll] ++ rebuild_tail s).

Definition teardown_state (s : State) : State :=
  mkState (ids s) None (swiper s) true (key s) (cancel (reinitialize s))
          (engine s) (dom s) [] (kill_all (views s) (heap s)) (now s)
          (log s ++ (if isStopped s then [] else [CComplete]) ++ unbind_calls (views s)).

(** ** What the timeout leaves *)

Definition fired (d : Debounced) (t : Z) : Debounced :=
  mkDebounced (wait d) false (lastCallTime d) t None.

Definition after_timers (s : State) : State :=
  match timerId (reinitialize s) with
  | None => s
  | Some _ => rebuild_state (set_reinitialize (fired (reinitialize s) (now s)) s)
  end.

(** ** Properties of the published stream *)

(** No two neighbours of the list are equal under [===]. *)
Fixpoint distinct_adjacent (l : list jsnumber) : Prop :=
  match l with
  | x :: (y :: _) as t => strict_eq x y = false ∧ distinct_adjacent t
  | _ => True
  end.

(** The subscriber's key is the value delivered last, and the stream so
    far has no equal neighbours. *)
Definition InvKey (s : State) : Prop :=
  key s = last (emitted (log s)) ∧ distinct_adjacent (emitted (log s)).

Definition Inv (s : State) : Prop := InvViews s ∧ InvDebounce s ∧ InvKey s.

(** The events through which the controller asks for a rebuild. *)
Definition is_request (e : Event) : bool :=
  match e with
  | EvNgOnChanges true | EvNgAfterViewInit => true
  | _ => false
  end.

(** ** A running example: three identifiers, five slides *)

(** Slides of a looping carousel over three items: the engine has padded
    the list with copies of the first two. *)
Definition slots5 : list HTMLElement :=
  [mkElement 100 (Num 0); mkElement 101 (Num 1); mkElement 102 (Num 2);
   mkElement 103 (Num 0); mkElement 104 (Num 1)].

Definition start : State := constructor (mkSwiper 0 slots5 true) slots5 0.

(** The identifiers arrive, the view is attached. *)
Definition attached : State :=
  run [EvIds (Some [10; 20; 30]); EvNgOnChanges true; EvNgAfterViewInit]%Z start.

(** The first population has run. *)
Definition ready : State := step EvTimers attached.

(** ** The container after a detach *)

(** The container after [detach(indexOf(view))]. *)
Fixpoint detach_first (c : ComponentRef) (l : list ComponentRef) : list ComponentRef :=
  match l with
  | [] => []
  | x :: l' => if decide (x = c) then l' else x :: detach_first c l'
  end.

(** ** Further observations on events and calls *)

Definition count_calls (p : Call → bool) (l : list Call) : nat :=
  length (filter (λ c, p c = true) l).

Definition is_complete (c : Call) : bool :=
  match c with CComplete => true | _ => false end.

Definition is_autoplay_start (c : Call) : bool :=
  match c with CAutoplayStart => true | _ => false end.

(** How often the stream has notified its completion. *)
Definition completions (l : list Call) : nat := count_calls is_complete l.

(** How often the controller has asked the engine to start autoplay. *)
Definition autoplay_starts (l : list Call) : nat := count_calls is_autoplay_start l.

Definition is_attach (e : Event) : bool :=
  match e with EvNgAfterViewInit => true | _ => false end.

Definition is_teardown (e : Event) : bool :=
  match e with EvNgOnDestroy => true | _ => false end.

Definition is_startAutoplay (e : Event) : bool :=
  match e with EvStartAutoplay _ => true | _ => false end.

(** The public methods and the engine's notification. *)
Definition is_api (e : Event) : bool :=
  match e with
  | EvIndexChanged | EvSlideTo _ _ | EvStartAutoplay _ | EvStopAutoplay _ => true
  | _ => false
  end.

(** The value the framework wrote to the [ids] input last. *)
Definition last_ids (evs : list Event) : option (list Z) :=
  foldl (λ acc e, match e with EvIds l => l | _ => acc end) None evs.

(** Every view in the container is a live instance. *)
Definition InvLive (s : State) : Prop :=
  ∀ c, c ∈ views s → ∃ inst, heap s !! c = Some inst ∧ destroyed inst = false.

(** The calls of [startAutoplay(reset)] and [stopAutoplay(reset)]. *)
Definition reset_calls (reset : bool) : list Call :=
  if reset then [CAutoplayStop; CSlideToLoop (Num 0) (Some 0%Z)] else [].

(** What a notification adds to the stream when the active slide is
    [element] and the value delivered last is [prev]. *)
Definition published (prev : option jsnumber) (element : HTMLElement) : list jsnumber :=
  match prev with
  | Some k => if strict_eq k (dataset_index element) then [] else [dataset_index element]
  | None => [dataset_index element]
  end.

(** * The application shell, [src/app/app.component.ts]

    The constructor subscribes one callback to the idle detector's stream
    of booleans; the detector, the router and the modal service are
    collaborators whose calls are logged. *)

Module AppComponent.

Inductive Call : Type :=
| CStartIdleWatch (seconds : Z)                (* idleDetector.startIdleWatch(s) *)
| CCloseModal                                  (* modalService.closeModal() *)
| CNavigateByUrl (url : String.string).        (* router.navigateByUrl(url) *)

Record State : Type := mkState {
  title : String.string;
  isIdle : bool;
  log : list Call
}.

(** The field initialisers and the constructor body up to [subscribe]. *)
Definition constructor : State :=
  mkState "macroscope-kiosk"%string false [CStartIdleWatch (60 * 7)%Z].

(** The subscriber: [(res) => { this.isIdle = res; if (res) { ... } }]. *)
Definition on_idle (res : bool) (s : State) : State :=
  let s1 := mkState (title s) res (log s) in
  if res
  then mkState (title s1) (isIdle s1)
               (log s1 ++ [CCloseModal; CNavigateByUrl String.EmptyString])
  else s1.

(** The emissions of the idle detector, one after the other. *)
Definition run (rs : list bool) (s : State) : State :=
  foldl (λ s res, on_idle res s) s rs.

(** The calls one emission brings about. *)
Definition idle_calls (res : bool) : list Call :=
  if res then [CCloseModal; CNavigateByUrl String.EmptyString] else [].

End AppComponent.

(** * Part II — lemmas and theorems *)

(** * Closed forms of the loops *)

Lemma set_heap_id s : set_heap (heap s) s = s.
Proof. by destruct s. Qed.

Lemma dead_id inst : destroyed inst = true → dead inst = inst.
Proof. destruct inst; simpl; by intros ->. Qed.

Lemma kill_length c h : length (kill c h) = length h.
Proof. apply length_alter. Qed.

Lemma kill_all_length cs h : length (kill_all cs h) = length h.
Proof.
  revert h; induction cs as [|c cs IH]; intros h; simpl; [done|].
  by rewrite IH, kill_length.
Qed.

Lemma kill_lookup c h j :
  kill c h !! j = (if decide (c = j) then dead <$> h !! j else h !! j).
Proof.
  unfold kill. case_decide as E.
  - subst. apply list_lookup_alter_eq.
  - by apply list_lookup_alter_ne.
Qed.

Lemma kill_kill c h : kill c (kill c h) = kill c h.
Proof.
  apply list_eq; intros j. rewrite !kill_lookup.
  destruct (decide (c = j)); [|done].
  generalize (h !! j); intros [[]|]; reflexivity.
Qed.

Lemma kill_all_lookup cs h j inst :
  h !! j = Some inst →
  kill_all cs h !! j
  = Some (mkItem (iterationId inst) (destroyed inst || bool_decide (j ∈ cs))).
Proof.
  revert h inst; induction cs as [|c cs IH]; intros h inst Hj; simpl.
  - rewrite Hj. destruct inst as [d b]; simpl. by rewrite orb_false_r.
  - destruct (decide (c = j)) as [->|Hne].
    + erewrite IH; last by (rewrite kill_lookup, decide_True, Hj by done).
      simpl. rewrite (bool_decide_eq_true_2 (j ∈ j :: cs)) by constructor.
      by rewrite orb_true_r.
    + erewrite IH; last by (rewrite kill_lookup, decide_False, Hj by done).
      do 2 f_equal. f_equal. apply bool_decide_ext. rewrite elem_of_cons.
      split; [by right | intros [E|E]; [by subst | done]].
Qed.

Lemma destroyView_kill c s : destroyView c s = set_heap (kill c (heap s)) s.
Proof.
  unfold destroyView.
  destruct (heap s !! c) as [inst|] eqn:E.
  - destruct (destroyed inst) eqn:D.
    + replace (kill c (heap s)) with (heap s); [by rewrite set_heap_id|].
      apply list_eq; intros j. rewrite kill_lookup. case_decide; [|done].
      subst. by rewrite E; simpl; rewrite dead_id.
    + f_equal. apply list_eq; intros j. rewrite kill_lookup.
      apply lookup_lt_Some in E as Hlt.
      destruct (decide (c = j)) as [->|Hne].
      * by rewrite list_lookup_insert_eq, E.
      * by rewrite list_lookup_insert_ne.
  - replace (kill c (heap s)) with (heap s); [by rewrite set_heap_id|].
    apply list_eq; intros j. rewrite kill_lookup. case_decide; [|done].
    subst. by rewrite E.
Qed.

Lemma indexOf_ge c l : (-1 ≤ indexOf c l)%Z.
Proof.
  induction l as [|x l IH]; simpl; [lia|].
  case_decide; [lia|]. destruct (Z.ltb_spec (indexOf c l) 0); lia.
Qed.

Lemma indexOf_notin c l : c ∉ l → indexOf c l = (-1)%Z.
Proof.
  induction l as [|x l IH]; simpl; [done|].
  intros Hn. apply not_elem_of_cons in Hn as [Hne Hn].
  rewrite decide_False by done. rewrite IH by done. done.
Qed.

Lemma indexOf_head c l : indexOf c (c :: l) = 0%Z.
Proof. simpl. by rewrite decide_True. Qed.

Lemma detach_negative s : detachEmbeddedView (-1) s = (None, s).
Proof.
  unfold detachEmbeddedView.
  destruct (Z.leb_spec (Z.of_nat (length (views s))) (-1)); [lia|]. done.
Qed.

Lemma detach_head s c cs :
  views s = c :: cs → detachEmbeddedView 0 s = (Some c, set_views cs s).
Proof.
  intros Hv. unfold detachEmbeddedView. rewrite Hv. simpl length.
  destruct (Z.leb_spec (Z.of_nat (S (length cs))) 0); [lia|]. done.
Qed.

(** Unbinding the first attached view, when it is attached only once. *)
Lemma destroyItemComponent_head s c cs :
  views s = c :: cs → c ∉ cs →
  destroyItemComponent c s
  = (Normal tt,
     set_log (log s ++ [CRemove 0%Z; CDestroy c])
             (set_heap (kill c (heap s)) (set_views cs s))).
Proof.
  intros Hv Hn. destruct s as [i0 c0 sw st k d e dm v h t lg]; simpl in Hv; subst v.
  unfold destroyItemComponent, viewContainer_indexOf, viewContainer_remove,
    component_destroy, call, bind, gets, modify.
  cbn -[destroyView detachEmbeddedView indexOf kill].
  rewrite indexOf_head.
  erewrite detach_head by reflexivity.
  rewrite !destroyView_kill.
  cbn -[destroyView detachEmbeddedView indexOf kill].
  rewrite indexOf_notin by done. rewrite detach_negative.
  cbn -[kill]. rewrite kill_kill, <- app_assoc. done.
Qed.

Lemma forEach_destroy cs : ∀ s,
  views s = cs → NoDup cs →
  forEach cs destroyItemComponent s
  = (Normal tt,
     set_log (log s ++ unbind_calls cs)
             (set_heap (kill_all cs (heap s)) (set_views [] s))).
Proof.
  induction cs as [|c cs IH]; intros s Hv Hnd;
    destruct s as [i0 c0 sw st k d e dm v h t lg]; cbn [views] in Hv; subst v.
  - cbn. unfold ret. by rewrite app_nil_r.
  - inversion Hnd as [|? ? Hn Hnd']; subst.
    cbn [forEach]. unfold bind.
    rewrite (destroyItemComponent_head _ c cs) by done.
    cbn [set_log set_heap set_views ids components swiper isStopped key reinitialize
         engine dom views heap now log].
    rewrite IH by done.
    cbn [set_log set_heap set_views ids components swiper isStopped key reinitialize
         engine dom views heap now log kill_all foldl unbind_calls].
    by rewrite <- app_assoc.
Qed.

(** [destroy] when the container holds exactly the tracked components. *)
Lemma destroy_closed s :
  views s = default [] (components s) → NoDup (views s) →
  destroy s
  = (Normal tt,
     mkState (ids s) None (swiper s) (isStopped s) (key s) (reinitialize s)
             (engine s) (dom s) [] (kill_all (views s) (heap s)) (now s)
             (log s ++ unbind_calls (views s))).
Proof.
  intros Hv Hnd. unfold destroy, bind, gets, modify.
  rewrite <- Hv. rewrite forEach_destroy by done. by destruct s.
Qed.

Lemma lookup_snoc_length {A} (h : list A) (x : A) : (h ++ [x]) !! length h = Some x.
Proof. induction h; simpl; done. Qed.

Lemma insert_snoc_length {A} (h : list A) (x y : A) :
  <[length h := y]> (h ++ [x]) = h ++ [y].
Proof. induction h as [|a h IH]; simpl; [done|]. by rewrite IH. Qed.

(** Binding one root once the identifiers are there. *)
Lemma createItemComponentForRoot_closed r s l :
  ids s = Some l →
  createItemComponentForRoot r s
  = (Normal (length (heap s)),
     set_log (log s ++ [CCreateComponent (length (heap s));
                        CItemDetectChanges (length (heap s)) (js_get l (dataset_index r));
                        CAppendChild (node r) (length (heap s))])
             (set_heap (heap s ++ [mkItem (js_get l (dataset_index r)) false])
                       (set_views (views s ++ [length (heap s)]) s))).
Proof.
  intros Hi. destruct s as [i0 c0 sw st k d e dm v h t lg]; simpl in Hi; subst i0.
  unfold createItemComponentForRoot, createItemComponent, updateItemComponent,
    viewContainer_createComponent, set_iterationId, item_detectChanges,
    call, bind, gets, modify, ret.
  cbn -[insert lookup]. rewrite lookup_snoc_length.
  cbn -[insert lookup]. rewrite insert_snoc_length, lookup_snoc_length.
  cbn. by rewrite <- !app_assoc.
Qed.

Lemma createItemComponentForRoot_undefined r s :
  ids s = None → createItemComponentForRoot r s = (Throw, s).
Proof.
  intros Hi. unfold createItemComponentForRoot, bind, gets, throw. by rewrite Hi.
Qed.

Lemma bind_calls_length l n roots : length (bind_calls l n roots) = 3 * length roots.
Proof. revert n; induction roots as [|r rs IH]; intros n; simpl; [done|]. rewrite IH. lia. Qed.

Lemma mapM_create roots : ∀ s l,
  ids s = Some l →
  mapM roots createItemComponentForRoot s
  = (Normal (seq (length (heap s)) (length roots)),
     set_log (log s ++ bind_calls l (length (heap s)) roots)
             (set_heap (heap s ++ bound_items l roots)
                       (set_views (views s ++ seq (length (heap s)) (length roots)) s))).
Proof.
  induction roots as [|r rs IH]; intros s l Hi;
    destruct s as [i0 c0 sw st k d e dm v h t lg]; cbn [ids] in Hi; subst i0.
  - cbn. unfold ret. by rewrite !app_nil_r.
  - cbn [mapM]. unfold bind.
    rewrite (createItemComponentForRoot_closed r _ l) by done.
    cbn [set_log set_heap set_views ids components swiper isStopped key reinitialize
         engine dom views heap now log].
    rewrite (IH _ l) by done.
    cbn [set_log set_heap set_views ids components swiper isStopped key reinitialize
         engine dom views heap now log bind_calls bound_items fmap list_fmap
         length seq ret].
    rewrite !length_app. cbn [length]. rewrite Nat.add_1_r, <- !app_assoc. done.
Qed.

(** The rebuild when the container holds exactly the tracked components
    and the identifiers are there. *)
Lemma reinitializeImpl_closed s l :
  ids s = Some l →
  views s = default [] (components s) → NoDup (views s) →
  reinitializeImpl s
  = (Normal tt,
     let n := length (heap s) in
     let k := length (dom s) in
     mkState (ids s) (Some (seq n k)) (swiper s) (isStopped s) (key s)
             (reinitialize s) (engine s) (dom s) (seq n k)
             (kill_all (views s) (heap s) ++ bound_items l (dom s)) (now s)
             (log s ++ unbind_calls (views s) ++ [CQuerySelectorAll]
                    ++ bind_calls l n (dom s) ++ [CDetectChanges])).
Proof.
  intros Hi Hv Hnd. unfold reinitializeImpl. unfold bind at 1.
  rewrite destroy_closed by done.
  unfold initialize, selectItemComponentRoots, bind, call, gets, modify.
  cbn [fst snd dom set_log].
  erewrite mapM_create by (simpl; exact Hi).
  cbn. rewrite kill_all_length, <- !app_assoc. done.
Qed.

(** The rebuild while [ids] is still undefined: nothing is bound, and the
    first root, if any, makes it throw. *)
Lemma reinitializeImpl_undefined s :
  ids s = None →
  views s = default [] (components s) → NoDup (views s) →
  reinitializeImpl s
  = (match dom s with [] => Normal tt | _ => Throw end,
     mkState (ids s) (match dom s with [] => Some [] | _ => None end)
             (swiper s) (isStopped s) (key s)
             (reinitialize s) (engine s) (dom s) []
             (kill_all (views s) (heap s)) (now s)
             (log s ++ unbind_calls (views s) ++ [CQuerySelectorAll]
                    ++ match dom s with [] => [CDetectChanges] | _ => [] end)).
Proof.
  intros Hi Hv Hnd. unfold reinitializeImpl. unfold bind at 1.
  rewrite destroy_closed by done.
  unfold initialize, selectItemComponentRoots, bind, call, gets, modify.
  cbn [fst snd dom set_log].
  destruct (dom s) as [|r rs] eqn:Hd.
  - cbn. by rewrite <- !app_assoc.
  - cbn [mapM]. unfold bind at 1.
    rewrite createItemComponentForRoot_undefined by (simpl; exact Hi).
    cbn. by rewrite <- !app_assoc.
Qed.

(** * Invariants of the reachable states *)

Ltac unfold_handlers :=
  unfold step, handle, ngOnChanges, ngAfterViewInit, indexChanged,
    startAutoplay, stopAutoplay, slideTo, autoplay_stop, autoplay_start, swiper_slideToLoop,
    subject_next, distinct_next, reinitialize_call, reinitialize_cancel,
    subject_complete, call, bind, gets, modify, ret, throw.

Ltac crush_handler :=
  unfold_handlers; cbn;
  repeat (case_match; simplify_eq/=; try done); try done.

Lemma step_frame_views e s :
  structural e = false →
  views (step e s) = views s ∧ heap (step e s) = heap s
  ∧ components (step e s) = components s.
Proof.
  intros He. destruct s; destruct e; try discriminate He; crush_handler.
Qed.

(** ** The rebuild and the teardown in closed form *)

Lemma reinitializeImpl_spec s :
  InvViews s → reinitializeImpl s = (rebuild_completion s, rebuild_state s).
Proof.
  intros [Hv Hnd _ _].
  unfold rebuild_completion, rebuild_state, rebuild_components, rebuild_items,
    rebuild_tail.
  destruct (ids s) as [l|] eqn:Hi.
  - rewrite (reinitializeImpl_closed s l) by done. by rewrite Hi.
  - rewrite reinitializeImpl_undefined by done. rewrite Hi.
    destruct (dom s); simpl; by rewrite ?app_nil_r.
Qed.

Lemma ngOnDestroy_spec s :
  InvViews s → ngOnDestroy s = (Normal tt, teardown_state s).
Proof.
  intros [Hv Hnd _ _]. destruct s as [i0 c0 sw st k d e dm v h t lg]; simpl in *.
  unfold ngOnDestroy, subject_complete, reinitialize_cancel, bind, gets, modify,
    call, ret.
  destruct st; cbn -[destroy]; rewrite destroy_closed by done; cbn;
    by rewrite ?app_nil_r, <- ?app_assoc.
Qed.

Lemma kill_all_destroyed vs h c inst' :
  (∀ c inst, h !! c = Some inst → destroyed inst = false → c ∈ vs) →
  kill_all vs h !! c = Some inst' → destroyed inst' = true.
Proof.
  intros Ha Hl.
  assert (c < length h) as Hlt
    by (rewrite <- (kill_all_length vs); by eapply lookup_lt_Some).
  destruct (lookup_lt_is_Some_2 h c Hlt) as [inst Hi].
  rewrite (kill_all_lookup _ _ _ _ Hi) in Hl. injection Hl as <-. simpl.
  destruct (destroyed inst) eqn:D; [done|]. simpl.
  apply bool_decide_eq_true_2. eauto.
Qed.

Lemma bound_items_length l roots : length (bound_items l roots) = length roots.
Proof. unfold bound_items. by rewrite length_fmap. Qed.

Lemma bound_items_alive l roots i inst :
  bound_items l roots !! i = Some inst → destroyed inst = false.
Proof.
  unfold bound_items. rewrite list_lookup_fmap.
  destruct (roots !! i); simpl; [|done]. by intros [= <-].
Qed.

Lemma InvViews_teardown s : InvViews s → InvViews (teardown_state s).
Proof.
  intros [Hv Hnd Hb Ha]. split; simpl.
  - done.
  - constructor.
  - intros c Hc. by apply elem_of_nil in Hc.
  - intros c inst Hl Hd. by rewrite (kill_all_destroyed _ _ _ _ Ha Hl) in Hd.
Qed.

Lemma InvViews_rebuild s : InvViews s → InvViews (rebuild_state s).
Proof.
  intros [Hv Hnd Hb Ha]. split; simpl.
  - done.
  - unfold rebuild_components. destruct (ids s), (dom s);
      first [apply NoDup_seq | constructor].
  - intros c Hc. rewrite length_app, kill_all_length.
    unfold rebuild_components, rebuild_items in *.
    destruct (ids s) as [l|]; simpl in Hc.
    + apply elem_of_seq in Hc. rewrite bound_items_length. lia.
    + destruct (dom s); simpl in Hc; by apply elem_of_nil in Hc.
  - intros c inst Hl Hd. apply lookup_app_Some in Hl as [Hl|[Hge Hl]].
    + by rewrite (kill_all_destroyed _ _ _ _ Ha Hl) in Hd.
    + rewrite kill_all_length in Hge, Hl.
      unfold rebuild_components, rebuild_items in *.
      destruct (ids s) as [l|]; simpl in *.
      * apply lookup_lt_Some in Hl. rewrite bound_items_length in Hl.
        apply elem_of_seq. lia.
      * by rewrite lookup_nil in Hl.
Qed.

(** ** The timeout in closed form *)

Lemma shouldInvoke_zero d t : wait d = 0%Z → shouldInvoke d t = true.
Proof.
  intros Hw. unfold shouldInvoke. destruct (lastCallTime d) as [t0|]; [|done].
  rewrite Hw. destruct (Z.leb_spec 0 (t - t0)); [done|].
  destruct (Z.ltb_spec (t - t0) 0); [done|lia].
Qed.

Lemma run_timers_idle s :
  timerId (reinitialize s) = None → run_timers s = (Normal tt, s).
Proof. intros H. unfold run_timers, bind, gets, ret. by rewrite H. Qed.

Lemma run_timers_fire s deadline :
  InvDebounce s → timerId (reinitialize s) = Some deadline →
  run_timers s
  = reinitializeImpl (set_reinitialize (fired (reinitialize s) (now s)) s).
Proof.
  intros [Hw Ht] Hd. destruct (Ht _ Hd) as [Hle Ha].
  unfold run_timers, bind, gets, modify. cbn [fst snd]. rewrite Hd.
  destruct (Z.leb_spec deadline (now s)); [|lia].
  unfold timerExpired. rewrite shouldInvoke_zero, Ha by done. done.
Qed.

Lemma InvViews_set_reinitialize d s : InvViews s → InvViews (set_reinitialize d s).
Proof. intros [? ? ? ?]. by split. Qed.

Lemma step_timers s :
  InvViews s → InvDebounce s → step EvTimers s = after_timers s.
Proof.
  intros Hv Hd. unfold step, handle, after_timers.
  destruct (timerId (reinitialize s)) as [deadline|] eqn:Ht.
  - rewrite (run_timers_fire s deadline) by done.
    by rewrite reinitializeImpl_spec by by apply InvViews_set_reinitialize.
  - by rewrite run_timers_idle.
Qed.

Lemma step_teardown s : InvViews s → step EvNgOnDestroy s = teardown_state s.
Proof. intros Hv. unfold step, handle. by rewrite ngOnDestroy_spec. Qed.

(** ** Observations of the closed forms *)

Lemma emitted_app l1 l2 : emitted (l1 ++ l2) = emitted l1 ++ emitted l2.
Proof. apply omap_app. Qed.

Lemma rebuilds_app l1 l2 : rebuilds (l1 ++ l2) = rebuilds l1 + rebuilds l2.
Proof. unfold rebuilds. by rewrite filter_app, length_app. Qed.

Lemma creations_app l1 l2 : creations (l1 ++ l2) = creations l1 + creations l2.
Proof. unfold creations. by rewrite filter_app, length_app. Qed.

Lemma creations_cons c l :
  creations (c :: l) = (if is_create c then 1 else 0) + creations l.
Proof.
  unfold creations. rewrite filter_cons.
  destruct (is_create c); case_decide; simpl; congruence.
Qed.

Lemma unbind_calls_quiet cs :
  emitted (unbind_calls cs) = [] ∧ rebuilds (unbind_calls cs) = 0
  ∧ creations (unbind_calls cs) = 0.
Proof. induction cs as [|c cs IH]; [done|]. exact IH. Qed.

Lemma bind_calls_quiet l n roots :
  emitted (bind_calls l n roots) = [] ∧ rebuilds (bind_calls l n roots) = 0
  ∧ creations (bind_calls l n roots) = length roots.
Proof.
  revert n; induction roots as [|r rs IH]; intros n; [done|].
  destruct (IH (S n)) as (He & Hr & Hc). repeat split; [done|done|].
  cbn [bind_calls]. rewrite !creations_cons, Hc. done.
Qed.

Lemma rebuild_tail_quiet s :
  emitted (rebuild_tail s) = [] ∧ rebuilds (rebuild_tail s) = 0.
Proof.
  unfold rebuild_tail. destruct (ids s) as [l|], (dom s) as [|r rs]; try done.
  - rewrite emitted_app, rebuilds_app.
    destruct (bind_calls_quiet l (length (heap s)) (r :: rs)) as (-> & -> & _). done.
Qed.

Lemma rebuild_state_emitted s : emitted (log (rebuild_state s)) = emitted (log s).
Proof.
  unfold rebuild_state; cbn [log]. rewrite !emitted_app.
  destruct (unbind_calls_quiet (views s)) as (-> & _).
  destruct (rebuild_tail_quiet s) as (-> & _). simpl. by rewrite app_nil_r.
Qed.

Lemma rebuild_state_rebuilds s :
  rebuilds (log (rebuild_state s)) = S (rebuilds (log s)).
Proof.
  unfold rebuild_state; cbn [log]. rewrite !rebuilds_app.
  destruct (unbind_calls_quiet (views s)) as (_ & -> & _).
  destruct (rebuild_tail_quiet s) as (_ & ->).
  replace (rebuilds [CQuerySelectorAll]) with 1 by reflexivity. lia.
Qed.

Lemma teardown_state_quiet s :
  emitted (log (teardown_state s)) = emitted (log s)
  ∧ rebuilds (log (teardown_state s)) = rebuilds (log s)
  ∧ creations (log (teardown_state s)) = creations (log s).
Proof.
  unfold teardown_state; cbn [log]. rewrite !emitted_app, !rebuilds_app, !creations_app.
  destruct (unbind_calls_quiet (views s)) as (-> & -> & ->).
  replace (emitted (if isStopped s then [] else [CComplete])) with (@nil jsnumber)
    by (by destruct (isStopped s)).
  replace (rebuilds (if isStopped s then [] else [CComplete])) with 0
    by (by destruct (isStopped s)).
  replace (creations (if isStopped s then [] else [CComplete])) with 0
    by (by destruct (isStopped s)).
  rewrite !app_nil_r. repeat split; lia.
Qed.

(** ** The published stream *)

Lemma distinct_adjacent_snoc l v :
  distinct_adjacent l →
  (∀ k, last l = Some k → strict_eq k v = false) →
  distinct_adjacent (l ++ [v]).
Proof.
  induction l as [|x l IH]; intros Hd Hl; [done|].
  destruct l as [|y l'].
  - simpl. split; [|done]. by apply Hl.
  - destruct Hd as [Hxy Hd]. split; [done|]. apply IH; [done|].
    intros k Hk. apply Hl. done.
Qed.

Lemma emitted_snoc l c :
  emitted (l ++ [c]) = emitted l ++ match c with CEmit v => [v] | _ => [] end.
Proof. rewrite emitted_app. by destruct c. Qed.

Lemma rebuilds_snoc l c :
  rebuilds (l ++ [c]) = rebuilds l + (if is_query c then 1 else 0).
Proof. rewrite rebuilds_app. by destruct c. Qed.

Lemma creations_snoc l c :
  creations (l ++ [c]) = creations l + (if is_create c then 1 else 0).
Proof. rewrite creations_app. by destruct c. Qed.

Lemma debounced_facts t d :
  wait (debounced t d) = wait d ∧ lastArgs (debounced t d) = true
  ∧ timerId (debounced t d)
    = Some (match timerId d with Some deadline => deadline | None => (t + wait d)%Z end).
Proof.
  unfold debounced, leadingEdge. simpl.
  destruct (timerId d); [done|]. by destruct (shouldInvoke d t).
Qed.

Ltac crush_quiet :=
  unfold_handlers; cbn -[debounced];
  repeat (case_match; simplify_eq/=; try done);
  rewrite ?emitted_snoc, ?rebuilds_snoc, ?creations_snoc; cbn -[debounced];
  rewrite ?app_nil_r, ?Nat.add_0_r; try done.

(** What every event other than teardown and the timeout leaves alone. *)
Lemma step_quiet e s :
  structural e = false →
  rebuilds (log (step e s)) = rebuilds (log s)
  ∧ creations (log (step e s)) = creations (log s)
  ∧ isStopped (step e s) = isStopped s
  ∧ (isStopped s = true → emitted (log (step e s)) = emitted (log s))
  ∧ (swiper s = true → swiper (step e s) = true).
Proof.
  intros He. destruct s; destruct e; try discriminate He; crush_quiet.
Qed.

Lemma debounced_inv t d :
  wait d = 0%Z →
  (∀ deadline, timerId d = Some deadline → (deadline ≤ t)%Z ∧ lastArgs d = true) →
  wait (debounced t d) = 0%Z
  ∧ (∀ deadline, timerId (debounced t d) = Some deadline →
     (deadline ≤ t)%Z ∧ lastArgs (debounced t d) = true).
Proof.
  intros Hw Ht. destruct (debounced_facts t d) as (Hw' & Ha' & Ht').
  split; [congruence|]. intros deadline Hd. split; [|done].
  rewrite Ht' in Hd. injection Hd as <-.
  destruct (timerId d) as [d0|] eqn:E; [by apply (Ht d0)|lia].
Qed.

Lemma step_quiet_debounce e s :
  structural e = false → InvDebounce s → InvDebounce (step e s).
Proof.
  intros He [Hw Ht].
  destruct s as [i0 c0 sw st k d en dm v h t lg]; simpl in *.
  destruct (debounced_inv t d Hw Ht) as [Hw' Ht'].
  destruct e; try discriminate He; crush_quiet; split; simpl; try done.
  intros deadline Hd. destruct (Ht _ Hd). split; [lia|done].
Qed.

Lemma step_quiet_key e s :
  structural e = false → InvKey s → InvKey (step e s).
Proof.
  intros He [Hk Hd].
  destruct s as [i0 c0 sw st k d en dm v h t lg]; simpl in *.
  destruct e; try discriminate He; crush_quiet; try (by split).
  all: split; simpl; rewrite ?emitted_snoc; simpl; rewrite ?app_nil_r, ?last_snoc;
    try done.
  all: apply distinct_adjacent_snoc; [done|].
  all: intros k0 Hk0; rewrite Hk0 in *; simplify_eq/=; try done.
  all: by match goal with H : strict_eq _ _ = false |- _ => rewrite H end.
Qed.

Lemma debounced_pending t d : is_Some (timerId (debounced t d)).
Proof. destruct (debounced_facts t d) as (_ & _ & ->). by eexists. Qed.

Lemma step_quiet_timer e s :
  structural e = false →
  (is_Some (timerId (reinitialize s)) → is_Some (timerId (reinitialize (step e s))))
  ∧ (is_request e = false →
     timerId (reinitialize (step e s)) = timerId (reinitialize s))
  ∧ (swiper s = false → e ≠ EvNgAfterViewInit →
     timerId (reinitialize (step e s)) = timerId (reinitialize s)
     ∧ swiper (step e s) = false).
Proof.
  intros He.
  destruct s as [i0 c0 sw st k d en dm v h t lg]; simpl in *.
  pose proof (debounced_pending t d) as Hp.
  destruct e; try discriminate He; crush_quiet.
  all: repeat split; try done.
  all: intros; simplify_eq/=; destruct has_ids; done.
Qed.

Lemma step_request s :
  swiper s = true →
  is_Some (timerId (reinitialize (step (EvNgOnChanges true) s)))
  ∧ rebuilds (log (step (EvNgOnChanges true) s)) = rebuilds (log s).
Proof.
  intros Hs. destruct s as [i0 c0 sw st k d en dm v h t lg]; simpl in *; subst.
  pose proof (debounced_pending t d) as Hp. crush_quiet.
Qed.

Lemma step_attach s :
  is_Some (timerId (reinitialize (step EvNgAfterViewInit s)))
  ∧ swiper (step EvNgAfterViewInit s) = true.
Proof.
  destruct s as [i0 c0 sw st k d en dm v h t lg].
  pose proof (debounced_pending t d) as Hp. crush_quiet.
Qed.

(** ** Every reachable state satisfies the invariants *)

Lemma Inv_constructor e d t : Inv (constructor e d t).
Proof.
  repeat split; simpl; try done.
  - constructor.
  - intros c Hc. by apply elem_of_nil in Hc.
Qed.

Lemma InvViews_frame s s' :
  views s' = views s → heap s' = heap s → components s' = components s →
  InvViews s → InvViews s'.
Proof. intros Hv Hh Hc [? ? ? ?]. split; rewrite ?Hv, ?Hh, ?Hc; done. Qed.

Lemma step_Inv e s : Inv s → Inv (step e s).
Proof.
  intros (Hv & Hd & Hk). destruct (structural e) eqn:He.
  - destruct e; try discriminate He.
    + rewrite step_teardown by done. split; [by apply InvViews_teardown|]. split.
      * destruct Hd as [Hw Ht]. split; simpl; done.
      * destruct Hk as [Hk Hda]. destruct (teardown_state_quiet s) as (Hem & _).
        split; rewrite Hem; done.
    + rewrite step_timers by done. unfold after_timers.
      destruct (timerId (reinitialize s)) as [deadline|] eqn:Ht; [|done].
      split; [by apply InvViews_rebuild, InvViews_set_reinitialize|]. split.
      * destruct Hd as [Hw _]. split; simpl; done.
      * destruct Hk as [Hk Hda]. split; rewrite rebuild_state_emitted; by destruct s.
  - destruct (step_frame_views e s He) as (E1 & E2 & E3).
    split; [by apply (InvViews_frame s)|].
    split; [by apply step_quiet_debounce | by apply step_quiet_key].
Qed.

Lemma run_app es es' s : run (es ++ es') s = run es' (run es s).
Proof. apply foldl_app. Qed.

Lemma run_snoc es e s : run (es ++ [e]) s = step e (run es s).
Proof. by rewrite run_app. Qed.

Lemma run_Inv es : ∀ s, Inv s → Inv (run es s).
Proof.
  induction es as [|e es IH]; intros s Hs; [done|].
  apply (IH (step e s)), step_Inv, Hs.
Qed.

(** ** What a single event can do *)

Lemma step_timers_pending s :
  Inv s → is_Some (timerId (reinitialize s)) →
  rebuilds (log (step EvTimers s)) = S (rebuilds (log s))
  ∧ timerId (reinitialize (step EvTimers s)) = None
  ∧ swiper (step EvTimers s) = swiper s.
Proof.
  intros (Hv & Hd & _) [deadline Ht]. rewrite step_timers by done.
  unfold after_timers. rewrite Ht. rewrite rebuild_state_rebuilds.
  by destruct s.
Qed.

Lemma step_timers_idle s :
  timerId (reinitialize s) = None → step EvTimers s = s.
Proof. intros Ht. unfold step, handle. by rewrite run_timers_idle. Qed.

Lemma step_stopped e s :
  Inv s → isStopped s = true →
  isStopped (step e s) = true ∧ emitted (log (step e s)) = emitted (log s).
Proof.
  intros (Hv & Hd & _) Hs. destruct (structural e) eqn:He.
  - destruct e; try discriminate He.
    + rewrite step_teardown by done.
      destruct (teardown_state_quiet s) as (-> & _). done.
    + rewrite step_timers by done. unfold after_timers.
      destruct (timerId (reinitialize s)); [|done].
      rewrite rebuild_state_emitted. by destruct s.
  - destruct (step_quiet e s He) as (_ & _ & E & F & _). rewrite E. auto.
Qed.

Lemma step_swiper e s : Inv s → swiper s = true → swiper (step e s) = true.
Proof.
  intros (Hv & Hd & _) Hs. destruct (structural e) eqn:He.
  - destruct e; try discriminate He.
    + by rewrite step_teardown.
    + rewrite step_timers by done. unfold after_timers.
      destruct (timerId (reinitialize s)); [|done]. by destruct s.
  - by apply step_quiet.
Qed.

(** Without a request nothing is scheduled, rebuilt or created. *)
Lemma step_no_request e s :
  Inv s → is_request e = false → timerId (reinitialize s) = None →
  timerId (reinitialize (step e s)) = None
  ∧ rebuilds (log (step e s)) = rebuilds (log s)
  ∧ creations (log (step e s)) = creations (log s).
Proof.
  intros (Hv & Hd & _) Hr Ht. destruct (structural e) eqn:He.
  - destruct e; try discriminate He.
    + rewrite step_teardown by done.
      destruct (teardown_state_quiet s) as (_ & -> & ->). done.
    + by rewrite step_timers_idle.
  - destruct (step_quiet e s He) as (-> & -> & _).
    destruct (step_quiet_timer e s He) as (_ & -> & _); done.
Qed.

(** Before the view is attached no request is accepted. *)
Lemma step_early e s :
  Inv s → swiper s = false → timerId (reinitialize s) = None →
  e ≠ EvNgAfterViewInit →
  swiper (step e s) = false
  ∧ timerId (reinitialize (step e s)) = None
  ∧ rebuilds (log (step e s)) = rebuilds (log s).
Proof.
  intros (Hv & Hd & _) Hs Ht Hne. destruct (structural e) eqn:He.
  - destruct e; try discriminate He.
    + rewrite step_teardown by done.
      destruct (teardown_state_quiet s) as (_ & -> & _). done.
    + by rewrite step_timers_idle.
  - destruct (step_quiet e s He) as (-> & _).
    destruct (step_quiet_timer e s He) as (_ & _ & H).
    destruct (H Hs Hne) as [-> ->]. done.
Qed.

Lemma reachable_Inv e0 d0 t0 evs : Inv (run evs (constructor e0 d0 t0)).
Proof. apply run_Inv, Inv_constructor. Qed.

(** * A running example: three identifiers, five slides *)

(** Five bindings, carrying 10, 20, 30, 10, 20. *)
Example ready_bindings :
  components ready = Some [0; 1; 2; 3; 4]
  ∧ (iterationId <$> heap ready) = [Some 10; Some 20; Some 30; Some 10; Some 20]%Z.
Proof. split; vm_compute; reflexivity. Qed.

(** The engine reports slide 3, slide 3 again, then slide 4: the stream
    carries 0, then 1. *)
Example ready_stream :
  emitted (log (run [EvActive 3; EvIndexChanged] ready)) = [Num 0]
  ∧ emitted (log (run [EvActive 3; EvIndexChanged; EvActive 3; EvIndexChanged] ready))
    = [Num 0]
  ∧ emitted (log (run [EvActive 3; EvIndexChanged; EvActive 3; EvIndexChanged;
                       EvActive 4; EvIndexChanged] ready))
    = [Num 0; Num 1].
Proof. repeat split; vm_compute; reflexivity. Qed.

(** A slide without a numeric index publishes [NaN] on every
    notification: [===] never finds it equal to the previous one. *)
Example blank_slide_stream :
  emitted (log (run [EvSlides [mkElement 200 NaN]; EvActive 0;
                     EvIndexChanged; EvIndexChanged] ready))
  = [NaN; NaN].
Proof. vm_compute; reflexivity. Qed.

(** [slideTo]'s call [this.stopAutoplay()] is [stopAutoplay(false)]. *)
Lemma stopAutoplay_default s : stopAutoplay false s = autoplay_stop s.
Proof. unfold stopAutoplay, bind, ret. by destruct (autoplay_stop s) as [[[]|] ?]. Qed.

(** * Navigation *)

(** C6. Every invocation of [slideTo(index, speed)], whatever the index,
    first stops autoplay and only then asks the engine for the loop-aware
    navigation; nothing else leaves the controller.  (Before the engine
    handle is bound the call throws at once and issues no navigation.) *)
Theorem slideTo_stops_autoplay_first (index : jsnumber) (speed : option Z) (s : State) :
  slideTo index speed s
  = if swiper s
    then (Normal tt,
          set_engine (mkSwiper (activeIndex (engine s)) (slides (engine s)) false)
                     (set_log (log s ++ [CAutoplayStop; CSlideToLoop index speed]) s))
    else (Throw, s).
Proof.
  destruct s as [i0 c0 sw st k d en dm v h t lg].
  unfold slideTo, autoplay_stop, swiper_slideToLoop, call, bind, gets, modify, throw.
  destruct sw; cbn; [|done]. by rewrite <- app_assoc.
Qed.

(** * The published index stream *)

Lemma subject_next_suppressed s v k :
  key s = Some k → strict_eq k v = true → subject_next v s = (Normal tt, s).
Proof.
  intros Hk He. unfold subject_next, distinct_next, bind, gets, ret.
  destruct (isStopped s); [done|]. by rewrite Hk, He.
Qed.

Lemma strict_eq_trans_num k z v :
  strict_eq k (Num z) = true → strict_eq k v = strict_eq (Num z) v.
Proof. destruct k as [a|]; [|done]. simpl. intros E%Z.eqb_eq. by subst. Qed.

Lemma indexChanged_twice s el z :
  swiper s = true →
  js_get (slides (engine s)) (Num (activeIndex (engine s))) = Some el →
  dataset_index el = Num z →
  step EvIndexChanged (step EvIndexChanged s) = step EvIndexChanged s.
Proof.
  intros Hs Hel Hz.
  destruct s as [i0 c0 sw st k d en dm v h t lg]; cbn [swiper engine] in *; subst sw.
  unfold step, handle, indexChanged, subject_next, distinct_next, bind, gets, modify,
    call, ret, throw.
  cbn -[js_get]. rewrite Hel, Hz.
  destruct st; cbn -[js_get]; [by rewrite Hel, Hz|].
  destruct k as [[a|]|]; cbn -[js_get].
  - destruct (Z.eqb_spec a z); cbn -[js_get]; rewrite Hel, Hz; cbn.
    + subst. by rewrite Z.eqb_refl.
    + by rewrite Z.eqb_refl.
  - rewrite Hel, Hz; cbn. by rewrite Z.eqb_refl.
  - rewrite Hel, Hz; cbn. by rewrite Z.eqb_refl.
Qed.

(** C2. Whatever the events before teardown (and after it), the published
    logical-index stream never carries two consecutive values that are
    equal: the channel compares with [===], and a candidate equal to the
    value published last is dropped without any effect.  In particular a
    second notification for the same active slide publishes nothing.
    (Under [===] the value [NaN], read from a slide without a numeric
    index, is equal to nothing, itself included.) *)
Theorem indexChange_distinct_until_changed
    (e0 : Swiper) (d0 : list HTMLElement) (t0 : Z) (evs : list Event) :
  let s := run evs (constructor e0 d0 t0) in
  distinct_adjacent (emitted (log s))
  ∧ (∀ v k, last (emitted (log s)) = Some k → strict_eq k v = true →
       subject_next v s = (Normal tt, s))
  ∧ (∀ el z, swiper s = true →
       js_get (slides (engine s)) (Num (activeIndex (engine s))) = Some el →
       dataset_index el = Num z →
       emitted (log (run [EvIndexChanged; EvIndexChanged] s))
       = emitted (log (run [EvIndexChanged] s))).
Proof.
  intros s. destruct (reachable_Inv e0 d0 t0 evs) as (_ & _ & Hk & Hd).
  fold s in Hk, Hd. split; [done|]. split.
  - intros v k Hl He. apply (subject_next_suppressed s v k); [|done]. by rewrite Hk.
  - intros el z Hs Hel Hz. simpl. by rewrite (indexChanged_twice s el z).
Qed.

Lemma indexChange_distinct_until_changed_witness :
  let s := run [EvIds (Some [10; 20; 30]%Z); EvNgOnChanges true; EvNgAfterViewInit;
                EvTimers; EvActive 3; EvIndexChanged]
               (constructor (mkSwiper 0 slots5 true) slots5 0) in
  last (emitted (log s)) = Some (Num 0)
  ∧ strict_eq (Num 0) (Num 0) = true
  ∧ subject_next (Num 0) s = (Normal tt, s).
Proof.
  intros s.
  assert (last (emitted (log s)) = Some (Num 0)) as H1 by (vm_compute; reflexivity).
  split; [exact H1|]. split; [reflexivity|].
  exact (proj1 (proj2 (indexChange_distinct_until_changed _ _ _ _))
               (Num 0) (Num 0) H1 eq_refl).
Defined.

(** * Scheduling of rebuilds *)

Lemma run_cons e es s : run (e :: es) s = run es (step e s).
Proof. done. Qed.

Lemma run_quiet es : ∀ s,
  Inv s → Forall (λ e, structural e = false) es →
  rebuilds (log (run es s)) = rebuilds (log s)
  ∧ (swiper s = true → swiper (run es s) = true)
  ∧ (is_Some (timerId (reinitialize s)) → is_Some (timerId (reinitialize (run es s)))).
Proof.
  induction es as [|e es IH]; intros s Hi Hq; [done|].
  apply Forall_cons in Hq as [He Hq]. rewrite run_cons.
  destruct (IH (step e s) (step_Inv e s Hi) Hq) as (-> & Hs & Ht).
  destruct (step_quiet e s He) as (-> & _ & _ & _ & Hs').
  destruct (step_quiet_timer e s He) as (Ht' & _). auto.
Qed.

Lemma run_burst_pending es : ∀ s,
  Inv s → swiper s = true → Forall (λ e, structural e = false) es →
  EvNgOnChanges true ∈ es →
  is_Some (timerId (reinitialize (run es s))).
Proof.
  induction es as [|e es IH]; intros s Hi Hs Hq Hin; [by apply elem_of_nil in Hin|].
  apply Forall_cons in Hq as [He Hq]. rewrite run_cons.
  apply elem_of_cons in Hin as [<-|Hin].
  - apply (run_quiet es); [by apply step_Inv|done|]. by apply step_request.
  - apply IH; [by apply step_Inv|by apply step_swiper|done|done].
Qed.

Lemma run_no_request es : ∀ s,
  Inv s → timerId (reinitialize s) = None →
  Forall (λ e, is_request e = false) es →
  timerId (reinitialize (run es s)) = None
  ∧ rebuilds (log (run es s)) = rebuilds (log s)
  ∧ creations (log (run es s)) = creations (log s).
Proof.
  induction es as [|e es IH]; intros s Hi Ht Hq; [done|].
  apply Forall_cons in Hq as [He Hq]. rewrite run_cons.
  destruct (step_no_request e s Hi He Ht) as (Ht' & <- & <-).
  apply IH; [by apply step_Inv|done|done].
Qed.

Lemma run_early es : ∀ s,
  Inv s → swiper s = false → timerId (reinitialize s) = None →
  Forall (λ e, e ≠ EvNgAfterViewInit) es →
  swiper (run es s) = false
  ∧ timerId (reinitialize (run es s)) = None
  ∧ rebuilds (log (run es s)) = rebuilds (log s).
Proof.
  induction es as [|e es IH]; intros s Hi Hs Ht Hq; [done|].
  apply Forall_cons in Hq as [He Hq]. rewrite run_cons.
  destruct (step_early e s Hi Hs Ht He) as (Hs' & Ht' & <-).
  apply IH; [by apply step_Inv|done|done|done].
Qed.

Lemma run_stopped es : ∀ s,
  Inv s → isStopped s = true →
  isStopped (run es s) = true ∧ emitted (log (run es s)) = emitted (log s).
Proof.
  induction es as [|e es IH]; intros s Hi Hs; [done|].
  rewrite run_cons. destruct (step_stopped e s Hi Hs) as (Hs' & <-).
  apply IH; [by apply step_Inv|done].
Qed.

(** One request and the timers turn that follows it. *)
Lemma request_then_timers s :
  Inv s → swiper s = true →
  let s' := run [EvNgOnChanges true; EvTimers] s in
  rebuilds (log s') = S (rebuilds (log s))
  ∧ timerId (reinitialize s') = None ∧ swiper s' = true ∧ Inv s'.
Proof.
  intros Hi Hs. simpl.
  destruct (step_request s Hs) as (Hp & Hr).
  pose proof (step_Inv (EvNgOnChanges true) s Hi) as Hi1.
  destruct (step_timers_pending _ Hi1 Hp) as (-> & -> & ->).
  rewrite Hr. split; [done|]. split; [done|].
  split; [by apply step_swiper | by apply step_Inv].
Qed.

(** C5. A burst of reconcile requests — replacements of the identifier
    sequence and whatever else happens before the event loop next serves
    the timeout — executes no rebuild while it lasts and exactly one at the
    timers turn that follows it; with no further request nothing more is
    rebuilt afterwards. *)
Theorem burst_coalesces_into_one_rebuild
    (e0 : Swiper) (d0 : list HTMLElement) (t0 : Z) (pre burst rest : list Event) :
  let s := run pre (constructor e0 d0 t0) in
  swiper s = true →
  Forall (λ e, structural e = false) burst →
  EvNgOnChanges true ∈ burst →
  Forall (λ e, is_request e = false) rest →
  rebuilds (log (run burst s)) = rebuilds (log s)
  ∧ rebuilds (log (run (burst ++ [EvTimers]) s)) = S (rebuilds (log s))
  ∧ rebuilds (log (run (burst ++ [EvTimers] ++ rest) s)) = S (rebuilds (log s)).
Proof.
  intros s Hs Hq Hin Hrest.
  pose proof (reachable_Inv e0 d0 t0 pre) as Hi. fold s in Hi.
  destruct (run_quiet burst s Hi Hq) as (Hr & _ & _).
  pose proof (run_burst_pending burst s Hi Hs Hq Hin) as Hp.
  pose proof (run_Inv burst s Hi) as Hi1.
  destruct (step_timers_pending _ Hi1 Hp) as (Hr2 & Ht2 & _).
  split; [done|]. split.
  - rewrite run_snoc, Hr2. by rewrite Hr.
  - rewrite app_assoc, run_app, run_snoc.
    destruct (run_no_request rest _ (step_Inv EvTimers _ Hi1) Ht2 Hrest) as (_ & -> & _).
    rewrite Hr2. by rewrite Hr.
Qed.

Lemma burst_coalesces_into_one_rebuild_witness :
  let s := run [EvIds (Some [10; 20; 30]%Z); EvNgAfterViewInit; EvTimers]
               (constructor (mkSwiper 0 slots5 true) slots5 0) in
  let burst := [EvIds (Some [10; 20]%Z); EvNgOnChanges true; EvElapse 3;
                EvIds (Some [10]%Z); EvNgOnChanges true] in
  swiper s = true
  ∧ rebuilds (log (run burst s)) = rebuilds (log s)
  ∧ rebuilds (log (run (burst ++ [EvTimers]) s)) = S (rebuilds (log s))
  ∧ rebuilds (log (run (burst ++ [EvTimers] ++ [EvElapse 5; EvTimers]) s))
    = S (rebuilds (log s)).
Proof.
  intros s burst.
  assert (swiper s = true) as Hs by (vm_compute; reflexivity).
  split; [exact Hs|].
  apply (burst_coalesces_into_one_rebuild (mkSwiper 0 slots5 true) slots5 0
           [EvIds (Some [10; 20; 30]%Z); EvNgAfterViewInit; EvTimers]
           burst [EvElapse 5; EvTimers] Hs).
  - repeat constructor.
  - unfold burst. apply list_elem_of_further, list_elem_of_here.
  - repeat constructor.
Defined.

(** C8. Replacing the identifier sequence asks for a reconciliation only
    once the view is attached and the engine handle bound: whatever arrives
    before [ngAfterViewInit] schedules and rebuilds nothing; the attachment
    itself requests the first population, which then runs exactly once (a
    replacement arriving in between coalesces with it); from then on a
    replacement is a request. *)
Theorem changes_request_only_after_attachment
    (e0 : Swiper) (d0 : list HTMLElement) (t0 : Z) (early : list Event) :
  Forall (λ e, e ≠ EvNgAfterViewInit) early →
  let s0 := run early (constructor e0 d0 t0) in
  let s1 := step EvNgAfterViewInit s0 in
  let s2 := step EvTimers s1 in
  (rebuilds (log s0) = 0 ∧ timerId (reinitialize s0) = None
   ∧ step (EvNgOnChanges true) s0 = s0)
  ∧ (rebuilds (log s1) = 0 ∧ is_Some (timerId (reinitialize s1))
     ∧ rebuilds (log (run [EvNgOnChanges true; EvTimers] s1)) = 1)
  ∧ (rebuilds (log s2) = 1 ∧ timerId (reinitialize s2) = None)
  ∧ (rebuilds (log (step EvTimers s2)) = 1)
  ∧ (is_Some (timerId (reinitialize (step (EvNgOnChanges true) s2)))
     ∧ rebuilds (log (run [EvNgOnChanges true; EvTimers] s2)) = 2).
Proof.
  intros Hearly s0 s1 s2.
  pose proof (Inv_constructor e0 d0 t0) as Hi.
  destruct (run_early early _ Hi eq_refl eq_refl Hearly) as (Hs0 & Ht0 & Hr0).
  fold s0 in Hs0, Ht0, Hr0.
  change (rebuilds (log (constructor e0 d0 t0))) with 0 in Hr0.
  pose proof (run_Inv early _ Hi) as Hi0. fold s0 in Hi0.
  destruct (step_attach s0) as (Hp1 & Hs1). fold s1 in Hp1, Hs1.
  destruct (step_quiet EvNgAfterViewInit s0 eq_refl) as (Hr1 & _). fold s1 in Hr1.
  pose proof (step_Inv EvNgAfterViewInit s0 Hi0) as Hi1. fold s1 in Hi1.
  destruct (step_timers_pending s1 Hi1 Hp1) as (Hr2 & Ht2 & Hs2).
  fold s2 in Hr2, Ht2, Hs2.
  pose proof (step_Inv EvTimers s1 Hi1) as Hi2. fold s2 in Hi2.
  assert (swiper s2 = true) as Hsw2 by congruence.
  destruct (request_then_timers s2 Hi2 Hsw2) as (Hr3 & _).
  destruct (request_then_timers s1 Hi1 Hs1) as (Hr4 & _).
  repeat split.
  - done.
  - done.
  - destruct s0; simpl in Hs0; subst. done.
  - lia.
  - done.
  - rewrite Hr4. lia.
  - lia.
  - done.
  - rewrite step_timers_idle by done. lia.
  - by apply step_request.
  - rewrite Hr3. lia.
Qed.

Lemma changes_request_only_after_attachment_witness :
  let early := [EvIds (Some [10; 20; 30]%Z); EvNgOnChanges true; EvTimers;
                EvIds (Some [10; 20]%Z); EvNgOnChanges true; EvTimers] in
  let s0 := run early (constructor (mkSwiper 0 slots5 true) slots5 0) in
  Forall (λ e, e ≠ EvNgAfterViewInit) early
  ∧ rebuilds (log s0) = 0
  ∧ rebuilds (log (step EvTimers (step EvNgAfterViewInit s0))) = 1.
Proof.
  intros early s0.
  assert (Forall (λ e, e ≠ EvNgAfterViewInit) early) as H by (repeat constructor; done).
  split; [exact H|].
  pose proof (changes_request_only_after_attachment
                (mkSwiper 0 slots5 true) slots5 0 early H) as Hc.
  cbv zeta in Hc. destruct Hc as ((H0 & _) & _ & (H2 & _) & _).
  split; [exact H0 | exact H2].
Defined.

(** C10. The debounce delay is zero in every reachable state, whatever the
    constructor is given and whatever happens afterwards: a request made
    while no timeout is pending sets a timeout that is due at the instant of
    the request, so the timers turn that follows rebuilds without any time
    having passed; requests made before that turn coalesce with it, requests
    separated by a timers turn are rebuilt separately. *)
Theorem debounce_delay_is_zero
    (e0 : Swiper) (d0 : list HTMLElement) (t0 : Z) (evs : list Event) :
  let s := run evs (constructor e0 d0 t0) in
  wait (reinitialize s) = 0%Z
  ∧ (swiper s = true →
     (timerId (reinitialize s) = None →
      timerId (reinitialize (step (EvNgOnChanges true) s)) = Some (now s))
     ∧ rebuilds (log (run [EvNgOnChanges true; EvTimers] s)) = S (rebuilds (log s))
     ∧ rebuilds (log (run [EvNgOnChanges true; EvNgOnChanges true; EvTimers] s))
       = S (rebuilds (log s))
     ∧ rebuilds (log (run [EvNgOnChanges true; EvTimers;
                           EvNgOnChanges true; EvTimers] s))
       = S (S (rebuilds (log s)))).
Proof.
  intros s. pose proof (reachable_Inv e0 d0 t0 evs) as Hi. fold s in Hi.
  destruct Hi as (Hv & [Hw Ht] & Hk). split; [done|]. intros Hs.
  assert (Inv s) as Hi by done.
  destruct (request_then_timers s Hi Hs) as (Hr1 & Ht1 & Hs1 & Hi1).
  destruct (request_then_timers _ Hi1 Hs1) as (Hr2 & _).
  split; [|split; [done|split]].
  - intros Hnone. destruct s as [i0 c0 sw st k d en dm v h t lg]; simpl in *; subst.
    destruct (debounced_facts t d) as (_ & _ & Hd). crush_quiet.
    rewrite Hd, Hw. by replace (t + 0)%Z with t by lia.
  - change (run [EvNgOnChanges true; EvNgOnChanges true; EvTimers] s)
      with (run ([EvNgOnChanges true; EvNgOnChanges true] ++ [EvTimers]) s).
    rewrite run_snoc.
    assert (Forall (λ e, structural e = false) [EvNgOnChanges true; EvNgOnChanges true])
      as Hq by (repeat constructor).
    destruct (run_quiet _ s Hi Hq) as (Hr & _).
    assert (EvNgOnChanges true ∈ [EvNgOnChanges true; EvNgOnChanges true])
      as Hin by apply list_elem_of_here.
    pose proof (run_burst_pending _ s Hi Hs Hq Hin) as Hp.
    destruct (step_timers_pending _ (run_Inv _ s Hi) Hp) as (-> & _). by rewrite Hr.
  - change (run [EvNgOnChanges true; EvTimers; EvNgOnChanges true; EvTimers] s)
      with (run [EvNgOnChanges true; EvTimers] (run [EvNgOnChanges true; EvTimers] s)).
    rewrite Hr2. by rewrite Hr1.
Qed.

Lemma debounce_delay_is_zero_witness :
  let s := run [EvIds (Some [10; 20; 30]%Z); EvNgAfterViewInit; EvTimers; EvElapse 7]
               (constructor (mkSwiper 0 slots5 true) slots5 0) in
  swiper s = true
  ∧ timerId (reinitialize s) = None
  ∧ timerId (reinitialize (step (EvNgOnChanges true) s)) = Some 7%Z
  ∧ rebuilds (log (run [EvNgOnChanges true; EvTimers] s)) = 2.
Proof.
  intros s. subst s.
  match goal with |- swiper ?s = true ∧ _ =>
    assert (swiper s = true) as Hs by (vm_compute; reflexivity);
    assert (timerId (reinitialize s) = None) as Ht by (vm_compute; reflexivity)
  end.
  pose proof (proj2 (debounce_delay_is_zero (mkSwiper 0 slots5 true) slots5 0
    [EvIds (Some [10; 20; 30]%Z); EvNgAfterViewInit; EvTimers; EvElapse 7]) Hs) as Hc.
  cbv zeta in Hc.
  split; [exact Hs|]. split; [exact Ht|]. split.
  - rewrite (proj1 Hc Ht). vm_compute; reflexivity.
  - rewrite (proj1 (proj2 Hc)). vm_compute; reflexivity.
Defined.

(** * Teardown *)

(** The specification has it that after [ngOnDestroy] no reconciliation
    and no binding creation occurs under any activity.  The controller keeps
    its engine handle and has no flag for being destroyed, so a change hook
    delivered after teardown schedules a rebuild as before, and the next
    timers turn binds all five slides again. *)
Lemma teardown_counterexample :
  let s := step EvNgOnDestroy ready in
  let s' := run [EvNgOnChanges true; EvTimers] s in
  rebuilds (log s) = 1 ∧ creations (log s) = 5
  ∧ rebuilds (log s') = 2 ∧ creations (log s') = 10
  ∧ components s' = Some [5; 6; 7; 8; 9]
  ∧ ¬ (∀ post, rebuilds (log (run post s)) = rebuilds (log s)
               ∧ creations (log (run post s)) = creations (log s)).
Proof.
  intros s s'.
  assert (rebuilds (log s) = 1) as H1 by (vm_compute; reflexivity).
  assert (rebuilds (log s') = 2) as H2 by (vm_compute; reflexivity).
  split; [exact H1|]. split; [vm_compute; reflexivity|].
  split; [exact H2|]. split; [vm_compute; reflexivity|].
  split; [vm_compute; reflexivity|].
  intros H. destruct (H [EvNgOnChanges true; EvTimers]) as [H3 _].
  fold s' in H3. rewrite H1, H2 in H3. discriminate H3.
Qed.

Lemma teardown_state_destroyed s c inst :
  InvViews s → heap (teardown_state s) !! c = Some inst → destroyed inst = true.
Proof. intros [_ _ _ Ha] Hl. by apply (kill_all_destroyed _ _ _ _ Ha Hl). Qed.

(** C4 (as amended). Teardown completes the index stream for good, cancels
    the pending rebuild and destroys every binding: afterwards the stream
    carries nothing more under any activity at all, and there is no
    reconciliation and no binding creation under any activity that does not
    deliver a change hook or attach the view again. *)
Theorem teardown_is_final
    (e0 : Swiper) (d0 : list HTMLElement) (t0 : Z) (pre post : list Event) :
  let s := step EvNgOnDestroy (run pre (constructor e0 d0 t0)) in
  (isStopped s = true ∧ timerId (reinitialize s) = None
   ∧ components s = None ∧ views s = []
   ∧ ∀ c inst, heap s !! c = Some inst → destroyed inst = true)
  ∧ (isStopped (run post s) = true ∧ emitted (log (run post s)) = emitted (log s))
  ∧ (Forall (λ e, is_request e = false) post →
     timerId (reinitialize (run post s)) = None
     ∧ rebuilds (log (run post s)) = rebuilds (log s)
     ∧ creations (log (run post s)) = creations (log s)).
Proof.
  intros s. pose proof (reachable_Inv e0 d0 t0 pre) as Hi.
  pose proof (step_Inv EvNgOnDestroy _ Hi) as Hi'. fold s in Hi'.
  destruct Hi as (Hv & _ & _).
  assert (s = teardown_state (run pre (constructor e0 d0 t0))) as Hs
    by (by apply step_teardown).
  assert (isStopped s = true) as Hst by (by rewrite Hs).
  assert (timerId (reinitialize s) = None) as Ht by (by rewrite Hs).
  split; [|split].
  - repeat split; try (by rewrite Hs). rewrite Hs. intros c inst.
    by apply teardown_state_destroyed.
  - by apply run_stopped.
  - intros Hq. by apply run_no_request.
Qed.

Lemma teardown_is_final_witness :
  let post := [EvActive 4; EvIndexChanged; EvElapse 9; EvTimers;
               EvSlideTo (Num 1) None; EvNgOnDestroy; EvTimers] in
  let s := step EvNgOnDestroy
             (run [EvIds (Some [10; 20; 30]%Z); EvNgAfterViewInit; EvTimers;
                   EvActive 3; EvIndexChanged; EvNgOnChanges true]
                  (constructor (mkSwiper 0 slots5 true) slots5 0)) in
  Forall (λ e, is_request e = false) post
  ∧ emitted (log (run post s)) = [Num 0]
  ∧ rebuilds (log (run post s)) = 1
  ∧ creations (log (run post s)) = 5.
Proof.
  intros post s.
  assert (Forall (λ e, is_request e = false) post) as Hq by (repeat constructor).
  split; [exact Hq|].
  pose proof (teardown_is_final (mkSwiper 0 slots5 true) slots5 0
    [EvIds (Some [10; 20; 30]%Z); EvNgAfterViewInit; EvTimers;
     EvActive 3; EvIndexChanged; EvNgOnChanges true] post) as Hc.
  cbv zeta in Hc. fold s in Hc.
  destruct Hc as (_ & (_ & He) & Hn). destruct (Hn Hq) as (_ & Hr & Hcr).
  split; [|split].
  - rewrite He. vm_compute; reflexivity.
  - rewrite Hr. vm_compute; reflexivity.
  - rewrite Hcr. vm_compute; reflexivity.
Defined.

(** * Reconciliation *)

Lemma bind_calls_append l roots : ∀ n i r,
  roots !! i = Some r → CAppendChild (node r) (n + i) ∈ bind_calls l n roots.
Proof.
  induction roots as [|r0 rs IH]; intros n i r Hl; [done|].
  cbn [bind_calls]. do 2 apply list_elem_of_further.
  destruct i as [|i]; simpl in Hl.
  - injection Hl as ->. rewrite Nat.add_0_r. apply list_elem_of_here.
  - apply list_elem_of_further. replace (n + S i) with (S n + i) by lia. by apply IH.
Qed.

(** What a completed rebuild leaves. *)
Lemma rebuild_state_bindings s :
  InvViews s → rebuild_completion s = Normal tt →
  ∃ cs, components (rebuild_state s) = Some cs ∧ views (rebuild_state s) = cs
    ∧ NoDup cs
    ∧ length cs = length (dom s)
    ∧ (∀ i r, dom s !! i = Some r →
         ∃ c l, cs !! i = Some c ∧ ids s = Some l
           ∧ heap (rebuild_state s) !! c
             = Some (mkItem (js_get l (dataset_index r)) false)
           ∧ CAppendChild (node r) c ∈ log (rebuild_state s))
    ∧ (∀ c, c ∈ views s →
         (c ∉ cs) ∧ (∃ inst, heap (rebuild_state s) !! c = Some inst
                              ∧ destroyed inst = true))
    ∧ (∀ c inst, heap (rebuild_state s) !! c = Some inst →
         destroyed inst = false → c ∈ cs).
Proof.
  intros Hv Hc. pose proof (InvViews_rebuild s Hv) as [Hv' Hnd' Hb' Ha'].
  destruct Hv as [Hvs Hnd Hb Ha].
  assert (∀ c, c ∈ views s →
            ∃ inst, heap (rebuild_state s) !! c = Some inst ∧ destroyed inst = true)
    as Hold.
  { intros c Hin. pose proof (Hb c Hin) as Hlt.
    destruct (lookup_lt_is_Some_2 (heap s) c Hlt) as [inst Hi].
    eexists. split.
    - cbn [heap rebuild_state]. rewrite lookup_app_l by (by rewrite kill_all_length).
      by apply kill_all_lookup.
    - simpl. rewrite bool_decide_eq_true_2 by done. by rewrite orb_true_r. }
  unfold rebuild_completion in Hc.
  destruct (ids s) as [l|] eqn:Hi.
  - exists (seq (length (heap s)) (length (dom s))).
    assert (rebuild_components s = Some (seq (length (heap s)) (length (dom s))))
      as Hrc by (unfold rebuild_components; by rewrite Hi).
    assert (views (rebuild_state s) = seq (length (heap s)) (length (dom s)))
      as Hvr by (cbn [views rebuild_state]; by rewrite Hrc).
    split; [done|]. split; [done|]. split; [apply NoDup_seq|].
    split; [apply length_seq|]. split; [|split].
    + intros i r Hr. exists (length (heap s) + i), l.
      pose proof (lookup_lt_Some _ _ _ Hr) as Hlt.
      split; [by apply lookup_seq_lt|]. split; [done|]. split.
      * cbn [heap rebuild_state]. rewrite lookup_app_r by (rewrite kill_all_length; lia).
        rewrite kill_all_length.
        replace (length (heap s) + i - length (heap s)) with i by lia.
        unfold rebuild_items, bound_items. rewrite Hi, list_lookup_fmap, Hr. done.
      * cbn [log rebuild_state]. unfold rebuild_tail. rewrite Hi.
        rewrite !elem_of_app. right. right. right. left.
        by apply bind_calls_append.
    + intros c Hin. split; [|by apply Hold].
      rewrite elem_of_seq. pose proof (Hb c Hin). lia.
    + intros c inst Hl Hd. rewrite <- Hvr. by apply (Ha' c inst).
  - destruct (dom s) as [|r rs] eqn:Hdom; [|done].
    exists []. unfold rebuild_state, rebuild_components. rewrite Hi, Hdom.
    split; [done|]. split; [done|]. split; [constructor|]. split; [done|].
    split; [|split].
    + intros i r Hr. by rewrite lookup_nil in Hr.
    + intros c Hin. split; [apply not_elem_of_nil|].
      destruct (Hold c Hin) as (inst & Hl & Hd). exists inst.
      unfold rebuild_state, rebuild_components in Hl. by rewrite Hi, Hdom in Hl.
    + intros c inst Hl Hd. pose proof (Ha' c inst) as Hx.
      unfold rebuild_state, rebuild_components in Hx. rewrite Hi, Hdom in Hx. auto.
Qed.

(** The timers turn of a reachable state with a pending timeout is a
    rebuild of the state that [timerExpired] leaves. *)
Lemma handle_timers_pending e0 d0 t0 evs :
  let s := run evs (constructor e0 d0 t0) in
  is_Some (timerId (reinitialize s)) →
  let s1 := set_reinitialize (fired (reinitialize s) (now s)) s in
  InvViews s1
  ∧ handle EvTimers s = (rebuild_completion s1, rebuild_state s1).
Proof.
  intros s [deadline Hp] s1.
  destruct (reachable_Inv e0 d0 t0 evs) as (Hv & Hd & _). fold s in Hv, Hd.
  assert (InvViews s1) as Hv1 by (by apply InvViews_set_reinitialize).
  split; [done|]. cbn [handle].
  rewrite (run_timers_fire s deadline) by done. by apply reinitializeImpl_spec.
Qed.

(** A completed timers turn of a reachable state with a pending timeout. *)
Lemma timers_rebuild_bindings e0 d0 t0 evs s' :
  let s := run evs (constructor e0 d0 t0) in
  is_Some (timerId (reinitialize s)) →
  handle EvTimers s = (Normal tt, s') →
  ∃ cs, components s' = Some cs ∧ views s' = cs
    ∧ NoDup cs
    ∧ length cs = length (dom s')
    ∧ (∀ i r, dom s' !! i = Some r →
         ∃ c l, cs !! i = Some c ∧ ids s' = Some l
           ∧ heap s' !! c = Some (mkItem (js_get l (dataset_index r)) false)
           ∧ CAppendChild (node r) c ∈ log s')
    ∧ (∀ c, c ∈ default [] (components s) →
         (c ∉ cs) ∧ (∃ inst, heap s' !! c = Some inst ∧ destroyed inst = true))
    ∧ (∀ c inst, heap s' !! c = Some inst → destroyed inst = false → c ∈ cs).
Proof.
  intros s Hp Hh.
  destruct (handle_timers_pending e0 d0 t0 evs Hp) as (Hv1 & Hh1).
  fold s in Hh1. rewrite Hh1 in Hh. injection Hh as Hc <-.
  destruct (rebuild_state_bindings _ Hv1 Hc)
    as (cs & H1 & H2 & H3 & H4 & H5 & H6 & H7).
  exists cs. repeat (split; [done|]). split; [|done].
  intros c Hin. apply H6. destruct Hv1 as [-> _ _ _]. done.
Qed.

(** The same turn once the identifiers are assigned: it completes, and
    these are its calls. *)
Lemma timers_rebuild_calls e0 d0 t0 evs l :
  let s := run evs (constructor e0 d0 t0) in
  is_Some (timerId (reinitialize s)) →
  ids s = Some l →
  handle EvTimers s = (Normal tt, step EvTimers s)
  ∧ log (step EvTimers s)
    = log s ++ unbind_calls (default [] (components s))
            ++ [CQuerySelectorAll]
            ++ bind_calls l (length (heap s)) (dom s)
            ++ [CDetectChanges].
Proof.
  intros s Hp Hi.
  destruct (handle_timers_pending e0 d0 t0 evs Hp) as (Hv1 & Hh1).
  fold s in Hh1, Hv1. destruct Hv1 as [Hvs _ _ _].
  assert (rebuild_completion (set_reinitialize (fired (reinitialize s) (now s)) s)
          = Normal tt) as Hc.
  { unfold rebuild_completion.
    replace (ids (set_reinitialize _ s)) with (ids s) by (by destruct s).
    by rewrite Hi. }
  rewrite Hc in Hh1. unfold step. rewrite Hh1. split; [done|].
  cbn [snd]. unfold rebuild_state, rebuild_tail. cbn [log].
  clear Hh1 Hc Hp. destruct s as [i0 c0 sw st k d e dm v h t lg].
  cbn in *. by subst.
Qed.

(** C1. After any successful reconciliation there is exactly one binding
    per discovered slide, loop duplicates included, in the order of the
    slides; the data injected into the binding of a slide is the identifier
    at the index the slide encodes ([ids[index]]); its root is appended to
    that slide; and no binding from before survives: each has been
    destroyed, none is among the new ones, and the new ones are the only
    live ones. *)
Theorem reconciliation_binds_every_slot
    (e0 : Swiper) (d0 : list HTMLElement) (t0 : Z) (evs : list Event) (s' : State) :
  let s := run evs (constructor e0 d0 t0) in
  is_Some (timerId (reinitialize s)) →
  handle EvTimers s = (Normal tt, s') →
  ∃ cs, components s' = Some cs ∧ views s' = cs
    ∧ NoDup cs
    ∧ length cs = length (dom s')
    ∧ (∀ i r, dom s' !! i = Some r →
         ∃ c l, cs !! i = Some c ∧ ids s' = Some l
           ∧ heap s' !! c = Some (mkItem (js_get l (dataset_index r)) false)
           ∧ CAppendChild (node r) c ∈ log s')
    ∧ (∀ c, c ∈ default [] (components s) →
         (c ∉ cs) ∧ (∃ inst, heap s' !! c = Some inst ∧ destroyed inst = true))
    ∧ (∀ c inst, heap s' !! c = Some inst → destroyed inst = false → c ∈ cs).
Proof. apply timers_rebuild_bindings. Qed.

Lemma reconciliation_binds_every_slot_witness :
  let s := run [EvIds (Some [10; 20; 30]%Z); EvNgOnChanges true; EvNgAfterViewInit]
               (constructor (mkSwiper 0 slots5 true) slots5 0) in
  is_Some (timerId (reinitialize s))
  ∧ handle EvTimers s = (Normal tt, step EvTimers s)
  ∧ ∃ cs, components (step EvTimers s) = Some cs ∧ length cs = 5.
Proof.
  intros s.
  assert (is_Some (timerId (reinitialize s))) as Hp by (vm_compute; eauto).
  assert (handle EvTimers s = (Normal tt, step EvTimers s)) as Hh
    by (vm_compute; reflexivity).
  split; [exact Hp|]. split; [exact Hh|].
  destruct (reconciliation_binds_every_slot (mkSwiper 0 slots5 true) slots5 0
    [EvIds (Some [10; 20; 30]%Z); EvNgOnChanges true; EvNgAfterViewInit]
    (step EvTimers s) Hp Hh) as (cs & Hc & _ & _ & Hl & _).
  exists cs. split; [exact Hc|]. rewrite Hl. vm_compute; reflexivity.
Defined.

(** The timers turn of a reachable state with a pending timeout, whatever
    the identifier input holds: how it completes, and its calls. *)
Lemma timers_rebuild_log e0 d0 t0 evs :
  let s := run evs (constructor e0 d0 t0) in
  is_Some (timerId (reinitialize s)) →
  handle EvTimers s = (rebuild_completion s, step EvTimers s)
  ∧ log (step EvTimers s)
    = log s ++ unbind_calls (default [] (components s))
            ++ [CQuerySelectorAll] ++ rebuild_tail s.
Proof.
  intros s Hp.
  destruct (handle_timers_pending e0 d0 t0 evs Hp) as (Hv1 & Hh1).
  fold s in Hh1, Hv1. destruct Hv1 as [Hvs _ _ _].
  unfold step. rewrite Hh1. cbn [snd].
  unfold rebuild_completion, rebuild_state, rebuild_tail. cbn [log].
  clear Hh1 Hp. destruct s as [i0 c0 sw st k d e dm v h t lg].
  cbn in *. by subst.
Qed.

(** The specification has it that every rebuild binds each discovered
    slide and finally forces a change-detection pass.  When the view is
    attached before the identifier sequence is assigned and the document
    already holds slides, the rebuild unbinds, queries the slides and then
    throws at the first of them: nothing is created and the final change
    detection is not reached. *)
Lemma rebuild_order_counterexample :
  let s := run [EvNgAfterViewInit] (constructor (mkSwiper 0 slots5 true) slots5 0) in
  is_Some (timerId (reinitialize s))
  ∧ handle EvTimers s = (Throw, step EvTimers s)
  ∧ log (step EvTimers s) = [CQuerySelectorAll]
  ∧ creations (log (step EvTimers s)) = 0
  ∧ ¬ (∃ binds, log (step EvTimers s)
                = log s ++ unbind_calls (default [] (components s))
                        ++ [CQuerySelectorAll] ++ binds ++ [CDetectChanges]).
Proof.
  intros s.
  assert (log (step EvTimers s) = [CQuerySelectorAll]) as Hl
    by (vm_compute; reflexivity).
  assert (log s = []) as Hl0 by (vm_compute; reflexivity).
  assert (components s = None) as Hc by (vm_compute; reflexivity).
  split; [vm_compute; eauto|]. split; [vm_compute; reflexivity|].
  split; [exact Hl|]. split; [rewrite Hl; reflexivity|].
  intros [binds H]. rewrite Hl, Hl0, Hc in H. simpl in H.
  injection H as H. by destruct binds.
Qed.

(** C7 (as amended). Every rebuild makes its calls in this order: it
    unbinds every tracked binding, then queries the slides afresh; when the
    identifier sequence is assigned it then binds each slide found — create,
    inject and render, append — and finally forces the host's change
    detection (as it does when the sequence is undefined and no slide is
    found); when the sequence is still undefined and a slide is found it
    throws at the first slide, creating nothing and without the final change
    detection.  Every removal and destruction precedes every creation of
    the same pass. *)
Theorem rebuild_order
    (e0 : Swiper) (d0 : list HTMLElement) (t0 : Z) (evs : list Event) :
  let s := run evs (constructor e0 d0 t0) in
  is_Some (timerId (reinitialize s)) →
  handle EvTimers s
  = (match ids s, dom s with
     | None, _ :: _ => Throw
     | _, _ => Normal tt
     end,
     step EvTimers s)
  ∧ log (step EvTimers s)
    = log s ++ unbind_calls (default [] (components s))
            ++ [CQuerySelectorAll]
            ++ match ids s, dom s with
               | Some l, _ => bind_calls l (length (heap s)) (dom s) ++ [CDetectChanges]
               | None, [] => [CDetectChanges]
               | None, _ :: _ => []
               end.
Proof. apply timers_rebuild_log. Qed.

Lemma rebuild_order_witness :
  let s := run [EvIds (Some [10; 20; 30]%Z); EvNgOnChanges true; EvNgAfterViewInit;
                EvTimers; EvIds (Some [10; 20]%Z); EvNgOnChanges true; EvTimers;
                EvDom (take 2 slots5); EvNgOnChanges true]
               (constructor (mkSwiper 0 slots5 true) slots5 0) in
  is_Some (timerId (reinitialize s))
  ∧ skipn (length (log s)) (log (step EvTimers s))
    = [CRemove 0; CDestroy 5; CRemove 0; CDestroy 6; CRemove 0; CDestroy 7;
       CRemove 0; CDestroy 8; CRemove 0; CDestroy 9;
       CQuerySelectorAll;
       CCreateComponent 10; CItemDetectChanges 10 (Some 10%Z); CAppendChild 100 10;
       CCreateComponent 11; CItemDetectChanges 11 (Some 20%Z); CAppendChild 101 11;
       CDetectChanges].
Proof.
  intros s.
  assert (is_Some (timerId (reinitialize s))) as Hp by (vm_compute; eauto).
  split; [exact Hp|].
  pose proof (proj2 (rebuild_order (mkSwiper 0 slots5 true) slots5 0
    [EvIds (Some [10; 20; 30]%Z); EvNgOnChanges true; EvNgAfterViewInit; EvTimers;
     EvIds (Some [10; 20]%Z); EvNgOnChanges true; EvTimers;
     EvDom (take 2 slots5); EvNgOnChanges true] Hp)) as Hl.
  fold s in Hl. rewrite Hl. vm_compute; reflexivity.
Defined.

(** The specification has it that binding a slide whose index has no
    identifier fails with an out-of-range error and the slide is skipped.
    With the sequence shrunk to two identifiers and the third slide still
    encoding index 2, the rebuild completes normally and binds all five
    slides; the third binding carries [undefined]. *)
Lemma stale_slot_counterexample :
  let s := run [EvIds (Some [10; 20]%Z); EvNgOnChanges true] ready in
  js_get [10; 20]%Z (Num 2) = None
  ∧ handle EvTimers s = (Normal tt, step EvTimers s)
  ∧ components (step EvTimers s) = Some [5; 6; 7; 8; 9]
  ∧ iterationId <$> heap (step EvTimers s) !! 7 = Some None
  ∧ CAppendChild 102 7 ∈ log (step EvTimers s)
  ∧ ¬ (∀ st r l, ids st = Some l → js_get l (dataset_index r) = None →
         fst (createItemComponentForRoot r st) = Throw).
Proof.
  intros s.
  split; [reflexivity|]. split; [vm_compute; reflexivity|].
  split; [vm_compute; reflexivity|]. split; [vm_compute; reflexivity|]. split.
  - apply list_elem_of_In. vm_compute. repeat (first [left; reflexivity | right]).
  - intros H.
    specialize (H s (mkElement 102 (Num 2)) [10; 20]%Z).
    assert (ids s = Some [10; 20]%Z) as Hi by (vm_compute; reflexivity).
    specialize (H Hi eq_refl).
    rewrite (createItemComponentForRoot_closed _ s _ Hi) in H. discriminate H.
Qed.

(** C3 (as amended). Binding a slide whose encoded index has no identifier
    does not fail: once the identifiers are assigned every rebuild completes,
    no slide is skipped, and each slide — the stale one included — gets a
    binding whose injected data is [ids[index]], which for the stale slide
    is [undefined]. *)
Theorem stale_slot_is_bound_with_undefined
    (e0 : Swiper) (d0 : list HTMLElement) (t0 : Z) (evs : list Event) (l : list Z) :
  let s := run evs (constructor e0 d0 t0) in
  is_Some (timerId (reinitialize s)) →
  ids s = Some l →
  (∀ st r, ids st = Some l →
     fst (createItemComponentForRoot r st) = Normal (length (heap st)))
  ∧ handle EvTimers s = (Normal tt, step EvTimers s)
  ∧ ∃ cs, components (step EvTimers s) = Some cs
      ∧ length cs = length (dom s)
      ∧ ∀ i r, dom s !! i = Some r →
          ∃ c, cs !! i = Some c
            ∧ heap (step EvTimers s) !! c
              = Some (mkItem (js_get l (dataset_index r)) false)
            ∧ (js_get l (dataset_index r) = None →
               heap (step EvTimers s) !! c = Some (mkItem None false)).
Proof.
  intros s Hp Hi. split.
  { intros st r Hst. by rewrite (createItemComponentForRoot_closed r st l). }
  destruct (timers_rebuild_calls e0 d0 t0 evs l Hp Hi) as (Hh & _). fold s in Hh.
  split; [done|].
  destruct (timers_rebuild_bindings e0 d0 t0 evs _ Hp Hh)
    as (cs & Hc & _ & _ & Hlen & Hslots & _).
  assert (dom (step EvTimers s) = dom s) as Hdom.
  { destruct (handle_timers_pending e0 d0 t0 evs Hp) as (_ & Hh1). fold s in Hh1.
    unfold step. rewrite Hh1. by destruct s. }
  assert (ids (step EvTimers s) = ids s) as Hids.
  { destruct (handle_timers_pending e0 d0 t0 evs Hp) as (_ & Hh1). fold s in Hh1.
    unfold step. rewrite Hh1. by destruct s. }
  rewrite Hdom in Hlen, Hslots.
  exists cs. split; [done|]. split; [done|].
  intros i r Hr. destruct (Hslots i r Hr) as (c & l' & Hci & Hl' & Hheap & _).
  assert (l' = l) as -> by congruence.
  exists c. split; [done|]. split; [done|]. by intros <-.
Qed.

Lemma stale_slot_is_bound_with_undefined_witness :
  let s := run [EvIds (Some [10; 20; 30]%Z); EvNgOnChanges true; EvNgAfterViewInit;
                EvTimers; EvIds (Some [10; 20]%Z); EvNgOnChanges true]
               (constructor (mkSwiper 0 slots5 true) slots5 0) in
  is_Some (timerId (reinitialize s))
  ∧ ids s = Some [10; 20]%Z
  ∧ handle EvTimers s = (Normal tt, step EvTimers s)
  ∧ ∃ cs, components (step EvTimers s) = Some cs ∧ length cs = 5.
Proof.
  intros s.
  assert (is_Some (timerId (reinitialize s))) as Hp by (vm_compute; eauto).
  assert (ids s = Some [10; 20]%Z) as Hi by (vm_compute; reflexivity).
  split; [exact Hp|]. split; [exact Hi|].
  destruct (stale_slot_is_bound_with_undefined (mkSwiper 0 slots5 true) slots5 0
    [EvIds (Some [10; 20; 30]%Z); EvNgOnChanges true; EvNgAfterViewInit;
     EvTimers; EvIds (Some [10; 20]%Z); EvNgOnChanges true] [10; 20]%Z Hp Hi)
    as (_ & Hh & cs & Hc & Hl & _).
  split; [exact Hh|]. exists cs. split; [exact Hc|].
  fold s in Hl. rewrite Hl. vm_compute; reflexivity.
Defined.

(** * Unbinding *)

Lemma indexOf_in c l :
  c ∈ l →
  (0 ≤ indexOf c l)%Z ∧ (indexOf c l < Z.of_nat (length l))%Z
  ∧ l !! Z.to_nat (indexOf c l) = Some c
  ∧ delete (Z.to_nat (indexOf c l)) l = detach_first c l.
Proof.
  induction l as [|x l IH]; intros Hin; [by apply elem_of_nil in Hin|].
  cbn [indexOf detach_first length]. destruct (decide (x = c)) as [->|Hne].
  - repeat split; try done; lia.
  - apply elem_of_cons in Hin as [?|Hin]; [congruence|].
    destruct (IH Hin) as (H0 & Hlt & Hl & Hd).
    destruct (Z.ltb_spec (indexOf c l) 0); [lia|].
    replace (Z.to_nat (indexOf c l + 1)) with (S (Z.to_nat (indexOf c l))) by lia.
    repeat split; try lia; [done|]. simpl. by rewrite Hd.
Qed.

Lemma detach_first_notin c l : c ∉ l → detach_first c l = l.
Proof.
  induction l as [|x l IH]; intros Hn; [done|].
  apply not_elem_of_cons in Hn as [Hne Hn]. simpl.
  rewrite decide_False by done. by rewrite IH.
Qed.

Lemma detach_first_other c c' l : c' ≠ c → c' ∈ detach_first c l ↔ c' ∈ l.
Proof.
  intros Hne. induction l as [|x l IH]; [done|]. simpl.
  destruct (decide (x = c)) as [->|Hx].
  - rewrite elem_of_cons. split; [auto|]. intros [?|?]; [congruence|done].
  - rewrite !elem_of_cons, IH. done.
Qed.

Lemma set_views_id s : set_views (views s) s = s.
Proof. by destruct s. Qed.

Lemma detach_indexOf s c v :
  views s = v →
  detachEmbeddedView (indexOf c v) s
  = (if decide (c ∈ v) then Some c else None, set_views (detach_first c v) s).
Proof.
  intros <-. unfold detachEmbeddedView. destruct (decide (c ∈ views s)) as [Hin|Hn].
  - destruct (indexOf_in c (views s) Hin) as (H0 & Hlt & Hl & Hd).
    destruct (Z.leb_spec (Z.of_nat (length (views s))) (indexOf c (views s))); [lia|].
    destruct (Z.ltb_spec (indexOf c (views s)) 0); [lia|].
    by rewrite Hl, Hd.
  - rewrite indexOf_notin by done.
    destruct (Z.leb_spec (Z.of_nat (length (views s))) (-1)); [lia|].
    cbn. by rewrite detach_first_notin, set_views_id.
Qed.

(** [destroyItemComponent] on any state and any reference. *)
Lemma destroyItemComponent_spec s c :
  destroyItemComponent c s
  = (Normal tt,
     set_log (log s ++ [CRemove (indexOf c (views s)); CDestroy c])
       (set_heap (kill c (heap s))
          (set_views (detach_first c (detach_first c (views s))) s))).
Proof.
  destruct s as [i0 c0 sw st k d e dm v h t lg].
  unfold destroyItemComponent, viewContainer_indexOf, viewContainer_remove,
    component_destroy, call, bind, gets, modify.
  cbn -[destroyView detachEmbeddedView indexOf kill detach_first].
  rewrite (detach_indexOf _ c v) by done.
  cbn -[destroyView detachEmbeddedView indexOf kill detach_first].
  destruct (decide (c ∈ v)) as [Hin|Hn];
    cbn -[destroyView detachEmbeddedView indexOf kill detach_first];
    rewrite ?destroyView_kill;
    cbn -[destroyView detachEmbeddedView indexOf kill detach_first];
    rewrite (detach_indexOf _ c (detach_first c v)) by done;
    rewrite ?destroyView_kill;
    cbn -[kill detach_first indexOf]; by rewrite ?kill_kill, <- app_assoc.
Qed.

Lemma kill_gone c h :
  (∀ inst, h !! c = Some inst → destroyed inst = true) → kill c h = h.
Proof.
  intros Hd. apply list_eq; intros j. rewrite kill_lookup.
  destruct (decide (c = j)) as [->|]; [|done].
  destruct (h !! j) as [inst|] eqn:E; [|done]. simpl. by rewrite dead_id by auto.
Qed.

Lemma forEach_destroy_frame cs : ∀ s,
  fst (forEach cs destroyItemComponent s) = Normal tt
  ∧ components (snd (forEach cs destroyItemComponent s)) = components s.
Proof.
  induction cs as [|c cs IH]; intros s; [done|].
  cbn [forEach]. unfold bind. rewrite destroyItemComponent_spec.
  destruct (IH (set_log (log s ++ [CRemove (indexOf c (views s)); CDestroy c])
                  (set_heap (kill c (heap s))
                     (set_views (detach_first c (detach_first c (views s))) s))))
    as (H1 & H2).
  split; [done|]. rewrite H2. by destruct s.
Qed.

Lemma destroy_twice s : destroy (snd (destroy s)) = (Normal tt, snd (destroy s)).
Proof.
  unfold destroy at 2 3. unfold bind, gets, modify.
  destruct (forEach_destroy_frame (default [] (components s)) s) as (H1 & H2).
  destruct (forEach (default [] (components s)) destroyItemComponent s)
    as [[[]|] s1] eqn:E; [|done]. cbn [fst snd] in *.
  unfold destroy, bind, gets, modify. by destruct s1.
Qed.

(** C9. Unbinding is never a fault.  Unbinding a binding that is already
    unbound — its view no longer in the container, its instance destroyed
    or unknown — makes the two calls to the framework and changes nothing;
    what became of the slides plays no part, since unbinding never touches
    them; every other binding and the controller's own fields stay as they
    are; and the teardown as a whole may be repeated without effect. *)
Theorem unbinding_twice_is_harmless (s : State) (c : ComponentRef) :
  fst (destroyItemComponent c s) = Normal tt
  ∧ (c ∉ views s → (∀ inst, heap s !! c = Some inst → destroyed inst = true) →
     destroyItemComponent c s
     = (Normal tt, set_log (log s ++ [CRemove (-1); CDestroy c]) s))
  ∧ (∀ d, destroyItemComponent c (set_dom d s)
          = (Normal tt, set_dom d (snd (destroyItemComponent c s))))
  ∧ (let s' := snd (destroyItemComponent c s) in
     (∀ c', c' ≠ c →
        heap s' !! c' = heap s !! c' ∧ (c' ∈ views s' ↔ c' ∈ views s))
     ∧ components s' = components s ∧ ids s' = ids s ∧ swiper s' = swiper s
     ∧ isStopped s' = isStopped s ∧ key s' = key s
     ∧ reinitialize s' = reinitialize s)
  ∧ destroy (snd (destroy s)) = (Normal tt, snd (destroy s)).
Proof.
  split; [by rewrite destroyItemComponent_spec|]. split; [|split; [|split]].
  - intros Hn Hd. rewrite destroyItemComponent_spec.
    rewrite (indexOf_notin c (views s) Hn), (detach_first_notin c (views s) Hn).
    rewrite (detach_first_notin c (views s) Hn), (kill_gone c (heap s) Hd).
    by destruct s.
  - intros d. rewrite !destroyItemComponent_spec. by destruct s.
  - rewrite destroyItemComponent_spec. cbn [snd]. split.
    + intros c' Hne. split.
      * destruct s; cbn -[kill]. rewrite kill_lookup. by rewrite decide_False.
      * destruct s; cbn -[detach_first]. by rewrite !detach_first_other.
    + by destruct s.
  - apply destroy_twice.
Qed.

Lemma unbinding_twice_is_harmless_witness :
  let s := step EvNgOnDestroy ready in
  (2 ∉ views s)
  ∧ (∀ inst, heap s !! 2 = Some inst → destroyed inst = true)
  ∧ destroyItemComponent 2 s
    = (Normal tt, set_log (log s ++ [CRemove (-1); CDestroy 2]) s).
Proof.
  intros s.
  assert (2 ∉ views s) as Hn by (vm_compute; apply not_elem_of_nil).
  assert (∀ inst, heap s !! 2 = Some inst → destroyed inst = true) as Hd
    by (vm_compute; intros inst [= <-]; reflexivity).
  split; [exact Hn|]. split; [exact Hd|].
  exact (proj1 (proj2 (unbinding_twice_is_harmless s 2)) Hn Hd).
Defined.

(** * Beyond the specification's claims: the public methods *)

(** X1. [startAutoplay(reset)] makes, once the engine is bound, exactly the
    calls [autoplay.start()] — preceded, when [reset] is set, by the stop
    and the zero-speed jump to index 0 of [slideTo(0, 0)] — and leaves
    autoplay running although [slideTo] has stopped it on the way; before
    the engine is bound it throws without any call. *)
Theorem startAutoplay_calls (reset : bool) (s : State) :
  startAutoplay reset s
  = if swiper s
    then (Normal tt,
          set_engine (mkSwiper (activeIndex (engine s)) (slides (engine s)) true)
                     (set_log (log s ++ reset_calls reset ++ [CAutoplayStart]) s))
    else (Throw, s).
Proof.
  destruct s as [i0 c0 sw st k d en dm v h t lg].
  unfold startAutoplay, slideTo, autoplay_stop, autoplay_start, swiper_slideToLoop,
    call, bind, gets, modify, throw, ret.
  destruct sw, reset; cbn; try done; by rewrite <- ?app_assoc.
Qed.

(** X2. [stopAutoplay(reset)] makes, once the engine is bound, exactly the
    calls [autoplay.stop()] — preceded, when [reset] is set, by the stop and
    the zero-speed jump to index 0 of [slideTo(0, 0)], so that the engine is
    then told to stop twice — and leaves autoplay stopped; before the engine
    is bound it throws without any call. *)
Theorem stopAutoplay_calls (reset : bool) (s : State) :
  stopAutoplay reset s
  = if swiper s
    then (Normal tt,
          set_engine (mkSwiper (activeIndex (engine s)) (slides (engine s)) false)
                     (set_log (log s ++ reset_calls reset ++ [CAutoplayStop]) s))
    else (Throw, s).
Proof.
  destruct s as [i0 c0 sw st k d en dm v h t lg].
  unfold stopAutoplay, slideTo, autoplay_stop, swiper_slideToLoop,
    call, bind, gets, modify, throw, ret.
  destruct sw, reset; cbn; try done; by rewrite <- ?app_assoc.
Qed.

Lemma js_get_None_iff {A} (a : list A) (z : Z) :
  js_get a (Num z) = None ↔ (z < 0)%Z ∨ (Z.of_nat (length a) ≤ z)%Z.
Proof.
  unfold js_get. destruct (Z.leb_spec 0 z) as [Hz|Hz].
  - rewrite lookup_ge_None. split; [intros; right; lia | intros [?|?]; lia].
  - split; [by left | done].
Qed.

Lemma subject_next_normal v s : fst (subject_next v s) = Normal tt.
Proof.
  unfold subject_next, distinct_next, bind, gets, modify, call, ret.
  destruct (isStopped s); [done|]. cbn.
  by destruct (match key s with Some k0 => strict_eq k0 v | None => false end).
Qed.

(** X3. The index-change callback throws exactly when the engine handle
    is not yet bound or the engine's active position is no position of its
    slide list (negative, or past the end); when it throws it has changed
    nothing and published nothing. *)
Theorem indexChanged_throws_iff (s : State) :
  (fst (indexChanged s) = Throw
   ↔ swiper s = false
     ∨ (activeIndex (engine s) < 0)%Z
     ∨ (Z.of_nat (length (slides (engine s))) ≤ activeIndex (engine s))%Z)
  ∧ (fst (indexChanged s) = Throw → indexChanged s = (Throw, s)).
Proof.
  pose proof (js_get_None_iff (slides (engine s)) (activeIndex (engine s))) as Hn.
  unfold indexChanged, bind, gets, throw in *. cbn [fst snd].
  destruct (swiper s) eqn:Hs.
  - destruct (js_get (slides (engine s)) (Num (activeIndex (engine s))))
      as [el|] eqn:Hel.
    + pose proof (subject_next_normal (dataset_index el) s) as Hnext.
      split.
      * split; [intros H; congruence|].
        intros [?|H]; [done|]. apply Hn in H. done.
      * intros H. congruence.
    + split; [|done]. split; [|done]. intros _. right. by apply Hn.
  - split; [|done]. split; [by left | done].
Qed.

Lemma indexChanged_published s el :
  InvKey s → swiper s = true → isStopped s = false →
  js_get (slides (engine s)) (Num (activeIndex (engine s))) = Some el →
  emitted (log (step EvIndexChanged s))
  = emitted (log s) ++ published (last (emitted (log s))) el.
Proof.
  intros [Hk _] Hs Hst Hel. rewrite <- Hk. clear Hk.
  destruct s as [i0 c0 sw st k d en dm v h t lg]; cbn [swiper isStopped engine key log] in *.
  subst sw st.
  unfold step, handle, indexChanged, subject_next, distinct_next, bind, gets, modify,
    call, ret, throw, published.
  cbn -[js_get]. rewrite Hel. cbn.
  destruct k as [k0|]; cbn.
  - destruct (strict_eq k0 (dataset_index el)); cbn; [by rewrite app_nil_r|].
    by rewrite emitted_snoc.
  - by rewrite emitted_snoc.
Qed.

(** X4. A notification publishes the logical index encoded on the active
    slide — not the slide's position — and it publishes it unless the value
    published last is [===] to it; the first notification always publishes. *)
Theorem indexChanged_publishes_encoded_index
    (e0 : Swiper) (d0 : list HTMLElement) (t0 : Z) (evs : list Event)
    (element : HTMLElement) :
  let s := run evs (constructor e0 d0 t0) in
  swiper s = true → isStopped s = false →
  js_get (slides (engine s)) (Num (activeIndex (engine s))) = Some element →
  emitted (log (step EvIndexChanged s))
  = emitted (log s) ++ published (last (emitted (log s))) element.
Proof.
  intros s Hs Hst Hel.
  destruct (reachable_Inv e0 d0 t0 evs) as (_ & _ & Hk). fold s in Hk.
  by apply indexChanged_published.
Qed.

Lemma indexChanged_publishes_encoded_index_witness :
  let s := run [EvIds (Some [10; 20; 30]%Z); EvNgAfterViewInit; EvTimers; EvActive 3]
               (constructor (mkSwiper 0 slots5 true) slots5 0) in
  swiper s = true ∧ isStopped s = false
  ∧ js_get (slides (engine s)) (Num (activeIndex (engine s)))
    = Some (mkElement 103 (Num 0))
  ∧ emitted (log (step EvIndexChanged s)) = [Num 0].
Proof.
  intros s.
  assert (swiper s = true) as Hs by (vm_compute; reflexivity).
  assert (isStopped s = false) as Hst by (vm_compute; reflexivity).
  assert (js_get (slides (engine s)) (Num (activeIndex (engine s)))
          = Some (mkElement 103 (Num 0))) as Hel by (vm_compute; reflexivity).
  split; [exact Hs|]. split; [exact Hst|]. split; [exact Hel|].
  pose proof (indexChanged_publishes_encoded_index (mkSwiper 0 slots5 true) slots5 0
    [EvIds (Some [10; 20; 30]%Z); EvNgAfterViewInit; EvTimers; EvActive 3]
    (mkElement 103 (Num 0)) Hs Hst Hel) as Hc.
  fold s in Hc. rewrite Hc. vm_compute; reflexivity.
Defined.

(** X5. The public methods and the index-change callback never touch the
    bindings or the schedule: they create and destroy no item component,
    leave the tracked components, the container, the identifiers and the
    debounce state as they are, and neither complete the stream nor run a
    rebuild. *)
Theorem api_leaves_bindings_alone (e : Event) (s : State) :
  is_api e = true →
  components (step e s) = components s ∧ views (step e s) = views s
  ∧ heap (step e s) = heap s ∧ ids (step e s) = ids s
  ∧ reinitialize (step e s) = reinitialize s ∧ isStopped (step e s) = isStopped s
  ∧ rebuilds (log (step e s)) = rebuilds (log s)
  ∧ creations (log (step e s)) = creations (log s).
Proof.
  intros He. destruct s; destruct e; try discriminate He; crush_quiet.
Qed.

Lemma api_leaves_bindings_alone_witness :
  is_api (EvStartAutoplay true) = true
  ∧ components (step (EvStartAutoplay true) ready) = Some [0; 1; 2; 3; 4]
  ∧ heap (step (EvStartAutoplay true) ready) = heap ready.
Proof.
  assert (is_api (EvStartAutoplay true) = true) as He by reflexivity.
  split; [exact He|].
  destruct (api_leaves_bindings_alone (EvStartAutoplay true) ready He)
    as (Hc & _ & Hh & _).
  split; [|exact Hh]. rewrite Hc. vm_compute; reflexivity.
Defined.

(** * Beyond the specification's claims: the bindings *)

Lemma InvLive_rebuild s : InvViews s → InvLive (rebuild_state s).
Proof.
  intros Hv c Hc. cbn [views heap rebuild_state] in *.
  unfold rebuild_components, rebuild_items in *.
  destruct (ids s) as [l|].
  - cbn [default] in Hc. apply elem_of_seq in Hc.
    assert (c - length (heap s) < length (bound_items l (dom s))) as Hlt
      by (rewrite bound_items_length; lia).
    destruct (lookup_lt_is_Some_2 _ _ Hlt) as [inst Hi].
    exists inst. split; [|by eapply bound_items_alive].
    rewrite lookup_app_r by (rewrite kill_all_length; lia).
    by rewrite kill_all_length.
  - destruct (dom s); by apply elem_of_nil in Hc.
Qed.

Lemma step_InvLive e s : Inv s → InvLive s → InvLive (step e s).
Proof.
  intros (Hv & Hd & _) Hl. destruct (structural e) eqn:He.
  - destruct e; try discriminate He.
    + rewrite step_teardown by done. intros c Hc. by apply elem_of_nil in Hc.
    + rewrite step_timers by done. unfold after_timers.
      destruct (timerId (reinitialize s)); [|done].
      by apply InvLive_rebuild, InvViews_set_reinitialize.
  - destruct (step_frame_views e s He) as (E1 & E2 & _).
    intros c. rewrite E1, E2. apply Hl.
Qed.

Lemma run_InvLive es : ∀ s, Inv s → InvLive s → InvLive (run es s).
Proof.
  induction es as [|e es IH]; intros s Hi Hl; [done|].
  rewrite run_cons. apply IH; [by apply step_Inv | by apply step_InvLive].
Qed.

(** X6. No item component leaks: in every reachable state — also after a
    rebuild that threw, and after teardown — the view container holds
    exactly the components tracked in [this.components], each once, and an
    instance is live exactly when it is one of them. *)
Theorem no_binding_leaks
    (e0 : Swiper) (d0 : list HTMLElement) (t0 : Z) (evs : list Event) :
  let s := run evs (constructor e0 d0 t0) in
  views s = default [] (components s)
  ∧ NoDup (views s)
  ∧ (∀ c inst, heap s !! c = Some inst →
       (destroyed inst = false ↔ c ∈ default [] (components s))).
Proof.
  intros s.
  destruct (reachable_Inv e0 d0 t0 evs) as ([Hv Hnd Hb Ha] & _). fold s in Hv, Hnd, Hb, Ha.
  assert (InvLive s) as Hl.
  { apply run_InvLive; [apply Inv_constructor|].
    intros c Hc. by apply elem_of_nil in Hc. }
  split; [done|]. split; [done|]. intros c inst Hi. rewrite <- Hv. split.
  - by apply Ha.
  - intros Hc. destruct (Hl c Hc) as (inst' & Hi' & Hd). congruence.
Qed.

Lemma step_heap_monotone e s c inst :
  Inv s → heap s !! c = Some inst →
  ∃ inst', heap (step e s) !! c = Some inst'
    ∧ iterationId inst' = iterationId inst
    ∧ (destroyed inst = true → destroyed inst' = true).
Proof.
  intros (Hv & Hd & _) Hi.
  assert (∀ vs, ∃ inst', kill_all vs (heap s) !! c = Some inst'
            ∧ iterationId inst' = iterationId inst
            ∧ (destroyed inst = true → destroyed inst' = true)) as Hk.
  { intros vs. eexists. split; [by apply kill_all_lookup|]. split; [done|].
    simpl. by intros ->. }
  destruct (structural e) eqn:He.
  - destruct e; try discriminate He.
    + rewrite step_teardown by done. apply Hk.
    + rewrite step_timers by done. unfold after_timers.
      destruct (timerId (reinitialize s)); [|by exists inst].
      cbn [heap rebuild_state]. pose proof (lookup_lt_Some _ _ _ Hi) as Hlt.
      rewrite lookup_app_l.
      * destruct s; apply Hk.
      * rewrite kill_all_length. by destruct s.
  - destruct (step_frame_views e s He) as (_ & -> & _). by exists inst.
Qed.

(** X7. A binding is never patched in place and never revived: once an
    item component exists, no later event changes the data injected into
    it, and once it is destroyed it stays destroyed. *)
Theorem bound_data_is_immutable
    (e0 : Swiper) (d0 : list HTMLElement) (t0 : Z) (evs es : list Event)
    (c : ComponentRef) (inst : ItemInstance) :
  let s := run evs (constructor e0 d0 t0) in
  heap s !! c = Some inst →
  ∃ inst', heap (run es s) !! c = Some inst'
    ∧ iterationId inst' = iterationId inst
    ∧ (destroyed inst = true → destroyed inst' = true).
Proof.
  intros s. pose proof (reachable_Inv e0 d0 t0 evs) as Hi. fold s in Hi.
  clearbody s. revert s inst Hi.
  induction es as [|e es IH]; intros s inst Hi Hl; [by exists inst|].
  rewrite run_cons.
  destruct (step_heap_monotone e s c inst Hi Hl) as (inst1 & H1 & Hd1 & Hx1).
  destruct (IH (step e s) inst1 (step_Inv e s Hi) H1) as (inst2 & H2 & Hd2 & Hx2).
  exists inst2. split; [done|]. split; [congruence|auto].
Qed.

Lemma bound_data_is_immutable_witness :
  let s := run [EvIds (Some [10; 20; 30]%Z); EvNgAfterViewInit; EvTimers]
               (constructor (mkSwiper 0 slots5 true) slots5 0) in
  let es := [EvIds (Some [7; 8; 9]%Z); EvNgOnChanges true; EvTimers; EvNgOnDestroy] in
  heap s !! 1 = Some (mkItem (Some 20%Z) false)
  ∧ ∃ inst', heap (run es s) !! 1 = Some inst'
      ∧ iterationId inst' = Some 20%Z
      ∧ (false = true → destroyed inst' = true).
Proof.
  intros s es.
  assert (heap s !! 1 = Some (mkItem (Some 20%Z) false)) as Hl
    by (vm_compute; reflexivity).
  split; [exact Hl|].
  exact (bound_data_is_immutable (mkSwiper 0 slots5 true) slots5 0
    [EvIds (Some [10; 20; 30]%Z); EvNgAfterViewInit; EvTimers] es 1
    (mkItem (Some 20%Z) false) Hl).
Defined.

(** X8. A rebuild that runs while [ids] is still undefined unbinds what is
    tracked and queries the slides as usual; with no slide in the document
    it completes, tracking an empty list; with any slide it throws at the
    first one, before creating anything and without the final change
    detection, and leaves [this.components] undefined and the container
    empty. *)
Theorem rebuild_before_ids
    (e0 : Swiper) (d0 : list HTMLElement) (t0 : Z) (evs : list Event) :
  let s := run evs (constructor e0 d0 t0) in
  is_Some (timerId (reinitialize s)) →
  ids s = None →
  handle EvTimers s
  = (match dom s with [] => Normal tt | _ :: _ => Throw end, step EvTimers s)
  ∧ components (step EvTimers s) = match dom s with [] => Some [] | _ :: _ => None end
  ∧ views (step EvTimers s) = []
  ∧ creations (log (step EvTimers s)) = creations (log s)
  ∧ log (step EvTimers s)
    = log s ++ unbind_calls (default [] (components s))
            ++ [CQuerySelectorAll]
            ++ match dom s with [] => [CDetectChanges] | _ :: _ => [] end.
Proof.
  intros s Hp Hi.
  destruct (handle_timers_pending e0 d0 t0 evs Hp) as (Hv1 & Hh1).
  fold s in Hh1, Hv1. destruct Hv1 as [Hvs _ _ _].
  unfold step. rewrite Hh1. cbn [snd].
  unfold rebuild_completion, rebuild_state, rebuild_components, rebuild_tail.
  cbn [components views log].
  replace (ids (set_reinitialize _ s)) with (ids s) by (by destruct s).
  replace (dom (set_reinitialize _ s)) with (dom s) by (by destruct s).
  replace (views (set_reinitialize _ s)) with (default [] (components s))
    by (rewrite Hvs; by destruct s).
  replace (log (set_reinitialize _ s)) with (log s) by (by destruct s).
  rewrite Hi.
  assert (∀ tl, creations tl = 0 →
            creations (log s ++ unbind_calls (default [] (components s))
                         ++ [CQuerySelectorAll] ++ tl) = creations (log s)) as Hcr.
  { intros tl Htl. rewrite !creations_app, Htl.
    destruct (unbind_calls_quiet (default [] (components s))) as (_ & _ & ->).
    replace (creations [CQuerySelectorAll]) with 0 by reflexivity. lia. }
  destruct (dom s); (split; [done|]); (split; [done|]); (split; [done|]);
    (split; [by apply Hcr|done]).
Qed.

Lemma rebuild_before_ids_witness :
  let s := run [EvNgAfterViewInit] (constructor (mkSwiper 0 slots5 true) slots5 0) in
  is_Some (timerId (reinitialize s))
  ∧ ids s = None
  ∧ handle EvTimers s = (Throw, step EvTimers s)
  ∧ components (step EvTimers s) = None.
Proof.
  intros s.
  assert (is_Some (timerId (reinitialize s))) as Hp by (vm_compute; eauto).
  assert (ids s = None) as Hi by (vm_compute; reflexivity).
  split; [exact Hp|]. split; [exact Hi|].
  destruct (rebuild_before_ids (mkSwiper 0 slots5 true) slots5 0 [EvNgAfterViewInit]
              Hp Hi) as (Hh & Hc & _).
  fold s in Hh, Hc. split; [rewrite Hh | rewrite Hc]; vm_compute; reflexivity.
Defined.

Lemma teardown_state_idem s : teardown_state (teardown_state s) = teardown_state s.
Proof.
  unfold teardown_state. cbn. by rewrite !app_nil_r.
Qed.

Lemma InvViews_reachable e0 d0 t0 evs : InvViews (run evs (constructor e0 d0 t0)).
Proof. by destruct (reachable_Inv e0 d0 t0 evs) as (? & _). Qed.

(** X9. [ngOnDestroy] may be delivered twice: the second delivery finds the
    stream completed, no timeout to cancel and nothing tracked, makes no
    call at all and leaves the state exactly as the first left it. *)
Theorem ngOnDestroy_twice
    (e0 : Swiper) (d0 : list HTMLElement) (t0 : Z) (evs : list Event) :
  let s := run evs (constructor e0 d0 t0) in
  handle EvNgOnDestroy (step EvNgOnDestroy s) = (Normal tt, step EvNgOnDestroy s).
Proof.
  intros s. pose proof (InvViews_reachable e0 d0 t0 evs) as Hv. fold s in Hv.
  rewrite step_teardown by done. cbn [handle].
  rewrite ngOnDestroy_spec by by apply InvViews_teardown.
  by rewrite teardown_state_idem.
Qed.

(** X10. [ngOnDestroy] never throws, and its calls are: the completion of
    the stream (unless it is completed already), then for each tracked
    component, in order, [viewContainer.remove(0)] — the index is always 0,
    since every removal shifts the container — followed by
    [component.destroy()]; with nothing tracked it only completes the
    stream.  Afterwards nothing is tracked and no timeout is pending. *)
Theorem ngOnDestroy_calls
    (e0 : Swiper) (d0 : list HTMLElement) (t0 : Z) (evs : list Event) :
  let s := run evs (constructor e0 d0 t0) in
  handle EvNgOnDestroy s = (Normal tt, step EvNgOnDestroy s)
  ∧ log (step EvNgOnDestroy s)
    = log s ++ (if isStopped s then [] else [CComplete])
            ++ unbind_calls (default [] (components s))
  ∧ components (step EvNgOnDestroy s) = None
  ∧ timerId (reinitialize (step EvNgOnDestroy s)) = None.
Proof.
  intros s. pose proof (InvViews_reachable e0 d0 t0 evs) as Hv. fold s in Hv.
  unfold step. cbn [handle]. rewrite ngOnDestroy_spec by done. cbn [snd].
  destruct Hv as [Hvs _ _ _]. unfold teardown_state. cbn. by rewrite Hvs.
Qed.

(** * Beyond the specification's claims: what the history determines *)

Lemma count_calls_app p l1 l2 :
  count_calls p (l1 ++ l2) = count_calls p l1 + count_calls p l2.
Proof. unfold count_calls. by rewrite filter_app, length_app. Qed.

Lemma count_calls_cons p c l :
  count_calls p (c :: l) = (if p c then 1 else 0) + count_calls p l.
Proof.
  unfold count_calls. rewrite filter_cons.
  destruct (p c); case_decide; simpl; congruence.
Qed.

Lemma count_calls_snoc p l c :
  count_calls p (l ++ [c]) = count_calls p l + (if p c then 1 else 0).
Proof. rewrite count_calls_app, count_calls_cons. unfold count_calls. simpl. lia. Qed.

Lemma count_unbind_calls p cs :
  (∀ i, p (CRemove i) = false) → (∀ c, p (CDestroy c) = false) →
  count_calls p (unbind_calls cs) = 0.
Proof.
  intros H1 H2. induction cs as [|c cs IH]; [done|].
  cbn [unbind_calls]. by rewrite !count_calls_cons, H1, H2, IH.
Qed.

Lemma count_bind_calls p l roots : ∀ n,
  (∀ c, p (CCreateComponent c) = false) →
  (∀ c d, p (CItemDetectChanges c d) = false) →
  (∀ r c, p (CAppendChild r c) = false) →
  count_calls p (bind_calls l n roots) = 0.
Proof.
  induction roots as [|r rs IH]; intros n H1 H2 H3; [done|].
  cbn [bind_calls]. by rewrite !count_calls_cons, H1, H2, H3, IH.
Qed.

(** A count that ignores the calls of binding and unbinding is not
    changed by a rebuild. *)
Lemma count_rebuild_state p s :
  (∀ i, p (CRemove i) = false) → (∀ c, p (CDestroy c) = false) →
  p CQuerySelectorAll = false →
  (∀ c, p (CCreateComponent c) = false) →
  (∀ c d, p (CItemDetectChanges c d) = false) →
  (∀ r c, p (CAppendChild r c) = false) →
  p CDetectChanges = false →
  count_calls p (log (rebuild_state s)) = count_calls p (log s).
Proof.
  intros H1 H2 H3 H4 H5 H6 H7. unfold rebuild_state. cbn [log].
  rewrite !count_calls_app, count_unbind_calls, count_calls_cons, H3 by done.
  assert (count_calls p (rebuild_tail s) = 0) as ->.
  { unfold rebuild_tail. destruct (ids s), (dom s);
      rewrite ?count_calls_app, ?count_bind_calls, ?count_calls_cons, ?H7 by done;
      done. }
  unfold count_calls at 2. simpl. lia.
Qed.

Ltac crush_count :=
  unfold_handlers; cbn -[debounced];
  repeat (case_match; simplify_eq/=; try done);
  unfold completions, autoplay_starts;
  rewrite ?count_calls_snoc; cbn -[debounced];
  rewrite ?Nat.add_0_r, ?Nat.add_assoc; try done.

(** What one event does to the handle, the stream's flag, the input and
    the two counts. *)
Lemma step_fields e s :
  InvViews s → InvDebounce s →
  swiper (step e s) = is_attach e || swiper s
  ∧ isStopped (step e s) = is_teardown e || isStopped s
  ∧ ids (step e s) = match e with EvIds l => l | _ => ids s end
  ∧ completions (log (step e s))
    = completions (log s) + (if is_teardown e && negb (isStopped s) then 1 else 0)
  ∧ autoplay_starts (log (step e s))
    = autoplay_starts (log s) + (if is_startAutoplay e && swiper s then 1 else 0).
Proof.
  intros Hv Hd. destruct (structural e) eqn:He.
  - destruct e; try discriminate He.
    + rewrite step_teardown by done. unfold teardown_state, completions, autoplay_starts.
      cbn [swiper isStopped ids log is_attach is_teardown is_startAutoplay orb andb].
      rewrite !count_calls_app, !count_unbind_calls by done.
      destruct (isStopped s); cbn; repeat split; try done; lia.
    + rewrite step_timers by done. unfold after_timers.
      cbn [is_attach is_teardown is_startAutoplay orb andb].
      destruct (timerId (reinitialize s)).
      * unfold completions, autoplay_starts. rewrite !count_rebuild_state by done.
        destruct s; cbn. repeat split; lia.
      * repeat split; lia.
  - destruct s; destruct e; try discriminate He; clear Hv Hd; crush_count.
Qed.

Lemma run_swiper es : ∀ s,
  Inv s → (swiper (run es s) = true ↔ swiper s = true ∨ EvNgAfterViewInit ∈ es).
Proof.
  induction es as [|e es IH]; intros s Hi.
  - simpl. rewrite elem_of_nil. tauto.
  - rewrite run_cons, (IH _ (step_Inv e s Hi)), elem_of_cons.
    destruct Hi as (Hv & Hd & _).
    destruct (step_fields e s Hv Hd) as (-> & _).
    destruct e; cbn; try (destruct (swiper s)); split; intros; try tauto;
      try (by left); try (destruct H as [?|[?|?]]; try done; auto).
    all: destruct H as [?|?]; auto.
Qed.

(** X11. The engine handle is bound exactly when [ngAfterViewInit] has been
    delivered: nothing else assigns [this.swiper], and nothing — teardown
    included — ever clears it. *)
Theorem swiper_bound_iff_attached
    (e0 : Swiper) (d0 : list HTMLElement) (t0 : Z) (evs : list Event) :
  swiper (run evs (constructor e0 d0 t0)) = true ↔ EvNgAfterViewInit ∈ evs.
Proof.
  rewrite (run_swiper evs _ (Inv_constructor e0 d0 t0)). cbn. split; [|auto].
  by intros [?|?].
Qed.

Lemma run_stopped_iff es : ∀ s,
  Inv s → completions (log s) = (if isStopped s then 1 else 0) →
  (isStopped (run es s) = true ↔ isStopped s = true ∨ EvNgOnDestroy ∈ es)
  ∧ completions (log (run es s)) = (if isStopped (run es s) then 1 else 0).
Proof.
  induction es as [|e es IH]; intros s Hi Hc.
  - simpl. rewrite elem_of_nil. split; [tauto|done].
  - rewrite run_cons.
    pose proof Hi as (Hv & Hd & _).
    destruct (step_fields e s Hv Hd) as (_ & Hst & _ & Hco & _).
    assert (completions (log (step e s)) = (if isStopped (step e s) then 1 else 0))
      as Hc'.
    { rewrite Hco, Hst, Hc. destruct (is_teardown e), (isStopped s); cbn; lia. }
    destruct (IH _ (step_Inv e s Hi) Hc') as (Hiff & Hcount).
    split; [|done]. rewrite Hiff, Hst, elem_of_cons.
    destruct e; cbn; destruct (isStopped s); split; intros H; try tauto;
      try (by left); try (right; by left);
      try (destruct H as [?|[?|?]]; try done; auto).
    all: destruct H as [?|?]; auto.
Qed.

(** X12. The index stream is completed exactly when [ngOnDestroy] has been
    delivered, and however often it is delivered the subscribers are told
    so exactly once. *)
Theorem stream_completed_iff_destroyed
    (e0 : Swiper) (d0 : list HTMLElement) (t0 : Z) (evs : list Event) :
  let s := run evs (constructor e0 d0 t0) in
  (isStopped s = true ↔ EvNgOnDestroy ∈ evs)
  ∧ completions (log s) = (if isStopped s then 1 else 0).
Proof.
  intros s.
  destruct (run_stopped_iff evs _ (Inv_constructor e0 d0 t0) eq_refl) as (Hiff & Hc).
  fold s in Hiff, Hc. split; [|done]. rewrite Hiff. cbn. split; [|auto].
  by intros [?|?].
Qed.

Lemma run_ids es : ∀ s,
  Inv s →
  ids (run es s) = foldl (λ acc e, match e with EvIds l => l | _ => acc end) (ids s) es.
Proof.
  induction es as [|e es IH]; intros s Hi; [done|].
  rewrite run_cons, (IH _ (step_Inv e s Hi)). cbn [foldl].
  destruct Hi as (Hv & Hd & _).
  by destruct (step_fields e s Hv Hd) as (_ & _ & -> & _).
Qed.

(** X13. The controller only reads the identifier sequence: whatever has
    happened — rebuilds, failed rebuilds, teardown — [this.ids] is the value
    the caller wrote last, and undefined when none was written. *)
Theorem ids_only_written_by_caller
    (e0 : Swiper) (d0 : list HTMLElement) (t0 : Z) (evs : list Event) :
  ids (run evs (constructor e0 d0 t0)) = last_ids evs.
Proof. apply (run_ids evs _ (Inv_constructor e0 d0 t0)). Qed.

(** X14. The controller asks the engine to start autoplay only inside
    [startAutoplay], only once the engine is bound, and then exactly once per
    call: no rebuild, teardown, navigation or notification restarts autoplay
    that [slideTo] or [stopAutoplay] has stopped. *)
Theorem autoplay_started_only_by_startAutoplay
    (e0 : Swiper) (d0 : list HTMLElement) (t0 : Z) (evs : list Event) (e : Event) :
  let s := run evs (constructor e0 d0 t0) in
  autoplay_starts (log (step e s))
  = autoplay_starts (log s) + (if is_startAutoplay e && swiper s then 1 else 0).
Proof.
  intros s. destruct (reachable_Inv e0 d0 t0 evs) as (Hv & Hd & _). fold s in Hv, Hd.
  by destruct (step_fields e s Hv Hd) as (_ & _ & _ & _ & ->).
Qed.

(** * Beyond the specification's claims: the application shell *)

Lemma app_run_cons res rs s :
  AppComponent.run (res :: rs) s = AppComponent.run rs (AppComponent.on_idle res s).
Proof. done. Qed.

(** X15. The shell's idle flag is always the value the idle detector
    emitted last, and [false] — its initial value — before the first
    emission. *)
Theorem app_isIdle_is_last_emission (rs : list bool) :
  AppComponent.isIdle (AppComponent.run rs AppComponent.constructor)
  = default false (last rs).
Proof.
  assert (∀ s, AppComponent.isIdle (AppComponent.run rs s)
               = default (AppComponent.isIdle s) (last rs)) as H.
  { induction rs as [|res rs IH]; intros s; [done|].
    rewrite app_run_cons, IH. destruct rs as [|r2 rs]; [by destruct res|].
    change (last (res :: r2 :: rs)) with (last (r2 :: rs)).
    destruct (last (r2 :: rs)) eqn:E; [done|].
    by apply last_None in E. }
  apply H.
Qed.

(** X16. Every emission [true] of the idle detector makes the shell close
    the modal and then navigate to the empty URL, in this order; an
    emission [false] makes no call; the idle watch of 420 seconds is started
    once, in the constructor, and the title never changes. *)
Theorem app_calls_per_emission (rs : list bool) :
  AppComponent.log (AppComponent.run rs AppComponent.constructor)
  = AppComponent.CStartIdleWatch 420 :: (rs ≫= AppComponent.idle_calls)
  ∧ AppComponent.title (AppComponent.run rs AppComponent.constructor)
    = AppComponent.title AppComponent.constructor.
Proof.
  assert (∀ s, AppComponent.log (AppComponent.run rs s)
               = AppComponent.log s ++ (rs ≫= AppComponent.idle_calls)
               ∧ AppComponent.title (AppComponent.run rs s) = AppComponent.title s)
    as H.
  { induction rs as [|res rs IH]; intros s.
    - simpl. by rewrite app_nil_r.
    - rewrite app_run_cons. destruct (IH (AppComponent.on_idle res s)) as (-> & ->).
      destruct res; cbn; [|done]. by rewrite <- app_assoc. }
  apply H.
Qed.
